(** * mows: the request dispatch pipeline

    A shallow embedding of the router, the middleware chain builder, the
    router groups, the request context and the dispatcher of the [mows]
    package, together with the properties of its specification.

    Layout: the Go library functions the package calls ([strings],
    [strconv], [encoding/json], the [http.ResponseWriter] contract) come
    first, then Go's slices with their shared backing arrays, then the
    package itself, file by file, then the lemmas and theorems. *)

From Stdlib Require Import ZArith Lia Ascii String List Bool.
From stdpp Require Import base option list gmap strings.

Set Warnings "-register-all".

Open Scope string_scope.
Open Scope list_scope.
Open Scope nat_scope.
Open Scope stdpp_scope.

(** ** Package [strings]

    Go strings are byte sequences, and so are Rocq's [string]s: one
    [ascii] is one byte.  The separators and cut sets used by the package
    are the single byte ["/"]; [Split] is the one-byte-separator case of
    [strings.Split]. *)

Module strings.

(** [strings.HasPrefix(s, prefix)]. *)
Definition HasPrefix (s prefix : string) : bool := String.prefix prefix s.

(** [strings.Contains(s, substr)]: [substr] starts at some offset of [s]. *)
Fixpoint Contains (s substr : string) : bool :=
  String.prefix substr s ||
  match s with
  | EmptyString => false
  | String _ s' => Contains s' substr
  end.

(** Membership of a byte in a cut set. *)
Fixpoint inCutset (c : ascii) (cutset : string) : bool :=
  match cutset with
  | EmptyString => false
  | String d cutset' => Ascii.eqb c d || inCutset c cutset'
  end.

(** [strings.TrimLeft(s, cutset)] for a cut set of one-byte characters. *)
Fixpoint TrimLeft (s cutset : string) : string :=
  match s with
  | EmptyString => EmptyString
  | String c s' => if inCutset c cutset then TrimLeft s' cutset else s
  end.

(** [strings.TrimRight(s, cutset)]: a byte is dropped when it is in the
    cut set and everything after it has been dropped. *)
Fixpoint TrimRight (s cutset : string) : string :=
  match s with
  | EmptyString => EmptyString
  | String c s' =>
      match TrimRight s' cutset with
      | EmptyString => if inCutset c cutset then EmptyString else String c EmptyString
      | t => String c t
      end
  end.

(** [strings.Trim(s, cutset)]: all leading and trailing bytes of the cut
    set removed. *)
Definition Trim (s cutset : string) : string :=
  TrimRight (TrimLeft s cutset) cutset.

(** [strings.Split(s, sep)] for a one-byte separator: the pieces between
    the separators, [Count(s, sep) + 1] of them; the empty string gives
    one empty piece. *)
Fixpoint Split (s : string) (sep : ascii) : list string :=
  match s with
  | EmptyString => [EmptyString]
  | String c s' =>
      if Ascii.eqb c sep then EmptyString :: Split s' sep
      else match Split s' sep with
           | piece :: pieces => String c piece :: pieces
           | [] => [String c EmptyString]
           end
  end.

(** [s[1:]] on a string that has a first byte (nothing to drop otherwise). *)
Definition from1 (s : string) : string :=
  match s with
  | EmptyString => EmptyString
  | String _ s' => s'
  end.

End strings.

(** ** Slices

    A Go slice is a window [(array, offset, len, cap)] on a backing array
    that other slices may share.  [append] writes in place when the
    capacity suffices, and the write is then visible through every slice
    that shares those cells; it moves to a fresh array otherwise.  How much
    room a fresh array has beyond what is needed is the runtime's choice:
    it is the parameter [slack] below (old capacity and needed length to
    extra capacity), so every statement holds for any growth policy. *)

Module slices.

Definition loc := positive.

Record slice := Slice {
  arr : loc;      (* the backing array *)
  off : nat;      (* first cell of the window *)
  len : nat;
  cap : nat;
}.

(** The nil slice: no array, length and capacity zero. *)
Definition nil : slice := Slice 1%positive 0 0 0.

Section memory.
Context {A : Type} `{Inhabited A}.

(** The memory maps a location to the cells of its array; an array never
    changes its length. *)
Definition cells (m : gmap loc (list A)) (a : loc) : list A :=
  default [] (m !! a).

(** The elements of a slice, [s[0], ..., s[len(s)-1]]. *)
Definition view (m : gmap loc (list A)) (s : slice) : list A :=
  take (len s) (drop (off s) (cells m (arr s))).

(** A slice a Go program can hold: its capacity lies within its array. *)
Definition wf (m : gmap loc (list A)) (s : slice) : Prop :=
  len s ≤ cap s ∧ (cap s = 0 ∨ off s + cap s ≤ length (cells m (arr s))).

Variable slack : nat → nat → nat.

(** [append(s, xs...)], where [xs] are the values read from the
    appended slice before anything is written (the copy is a memmove).
    Room left: the cells after the window are overwritten, in the
    shared array.  No room: a fresh array receives the elements, the
    new values and zero values up to its capacity. *)
Definition append (m : gmap loc (list A)) (s : slice) (xs : list A)
  : slice * gmap loc (list A) :=
  let n := len s + length xs in
  if decide (n ≤ cap s) then
    match xs with
    | [] => (s, m)
    | _ =>
      let a := cells m (arr s) in
      let a' := take (off s + len s) a ++ xs ++ drop (off s + n) a in
      (Slice (arr s) (off s) n (cap s), <[arr s := a']> m)
    end
  else
    let l := fresh (dom m) in
    let extra := slack (cap s) n in
    (Slice l 0 n (n + extra), <[l := view m s ++ xs ++ replicate extra inhabitant]> m).

End memory.

End slices.

(** ** Go's [int] and [error]

    [int] is 64 bits wide on the platforms the package runs on; sums are
    taken modulo [2^64] into the signed range. *)

Definition wrapInt (z : Z) : Z :=
  ((z + 2 ^ 63) mod 2 ^ 64 - 2 ^ 63)%Z.

Definition intAdd (a b : Z) : Z := wrapInt (a + b).

(** An [error] value is what [errors.New] made, or an error of a library
    ([encoding/json], [strconv], a failing body reader); [Error] is its
    message.  The text kept for a library error stands for the library's
    own wording. *)
Inductive error :=
  | errors_New (text : string)
  | libraryError (pkg text : string).

Definition Error (err : error) : string :=
  match err with
  | errors_New text => text
  | libraryError _ text => text
  end.

(** The double quote, as a one-byte string. *)
Definition dquote : string := String (ascii_of_nat 34) EmptyString.

(** ** Package [strconv] *)

Module strconv.

Definition isDigit (c : ascii) : bool :=
  (48 <=? nat_of_ascii c) && (nat_of_ascii c <=? 57).

(** The value of a run of decimal digits, [None] on any other byte. *)
Fixpoint digits (acc : Z) (s : string) : option Z :=
  match s with
  | EmptyString => Some acc
  | String c s' =>
      if isDigit c
      then digits (10 * acc + Z.of_nat (nat_of_ascii c - 48))%Z s'
      else None
  end.

Definition errSyntax (fn s : string) : error :=
  libraryError "strconv"
    (fn +:+ ": parsing " +:+ dquote +:+ s +:+ dquote +:+ ": invalid syntax").
Definition errRange (fn s : string) : error :=
  libraryError "strconv"
    (fn +:+ ": parsing " +:+ dquote +:+ s +:+ dquote +:+ ": value out of range").

(** [strconv.Atoi]: an optional sign, then at least one decimal digit and
    nothing else; a value outside the [int] range is an error and the
    nearest bound is returned with it. *)
Definition Atoi (s : string) : Z * option error :=
  let '(neg, body) :=
    match s with
    | String "-" s' => (true, s')
    | String "+" s' => (false, s')
    | _ => (false, s)
    end in
  match body with
  | EmptyString => (0%Z, Some (errSyntax "strconv.Atoi" s))
  | _ =>
    match digits 0 body with
    | None => (0%Z, Some (errSyntax "strconv.Atoi" s))
    | Some n =>
        if neg then
          if (n <=? 2 ^ 63)%Z then ((- n)%Z, None)
          else ((- 2 ^ 63)%Z, Some (errRange "strconv.Atoi" s))
        else
          if (n <? 2 ^ 63)%Z then (n, None)
          else ((2 ^ 63 - 1)%Z, Some (errRange "strconv.Atoi" s))
    end
  end.

(** [strconv.ParseBool]: exactly these twelve spellings. *)
Definition ParseBool (str : string) : bool * option error :=
  if existsb (String.eqb str) ["1"; "t"; "T"; "TRUE"; "true"; "True"]
  then (true, None)
  else if existsb (String.eqb str) ["0"; "f"; "F"; "FALSE"; "false"; "False"]
  then (false, None)
  else (false, Some (errSyntax "strconv.ParseBool" str)).

(** The decimal digits of a number that is not negative, most significant
    first, put before [acc]; [fuel] bounds their number. *)
Fixpoint formatDigits (fuel : nat) (n : Z) (acc : string) : string :=
  match fuel with
  | 0 => acc
  | S fuel' =>
      let acc' := String (ascii_of_nat (48 + Z.to_nat (n mod 10))) acc in
      if (n <? 10)%Z then acc' else formatDigits fuel' (n / 10) acc'
  end.

(** [strconv.Itoa]: the decimal form of an [int], with a minus sign for a
    negative one; twenty digits are more than an [int] has. *)
Definition Itoa (i : Z) : string :=
  if (i <? 0)%Z then String "-" (formatDigits 20 (- i) EmptyString)
  else formatDigits 20 i EmptyString.

End strconv.

(** ** Package [encoding/json]

    A Go value as [encoding/json] sees it through reflection is a [value]:
    a struct is an [Object] with its tagged field names in declaration
    order, a map an [Object] with its keys sorted.  Numbers keep their
    literal.  Strings are taken to be valid UTF-8 without the line
    separators U+2028 and U+2029, the only bytes above 127 the encoder
    would not copy. *)

Module json.

Inductive value :=
  | Null
  | Bool (b : bool)
  | Number (literal : string)
  | Str (s : string)
  | Array (elems : list value)
  | Object (members : list (string * value)).

(** *** Encoding *)

Definition hexDigit (n : nat) : ascii :=
  nth n (list_ascii_of_string "0123456789abcdef") "0"%char.

Definition u00 (n : nat) : string :=
  "\u00" +:+ String (hexDigit (n / 16)) (String (hexDigit (n mod 16)) EmptyString).

(** One byte of a string literal, with the encoder's HTML escaping on
    (the default of [json.NewEncoder]). *)
Definition escapeByte (c : ascii) : string :=
  let n := nat_of_ascii c in
  if (n =? 34) || (n =? 92) then String "\" (String c EmptyString)
  else if n =? 8 then "\b"
  else if n =? 12 then "\f"
  else if n =? 10 then "\n"
  else if n =? 13 then "\r"
  else if n =? 9 then "\t"
  else if (n <? 32) || (n =? 60) || (n =? 62) || (n =? 38) then u00 n
  else String c EmptyString.

Fixpoint escape (s : string) : string :=
  match s with
  | EmptyString => EmptyString
  | String c s' => escapeByte c +:+ escape s'
  end.

Definition quote (s : string) : string := dquote +:+ escape s +:+ dquote.

(** [json.Marshal]: the compact encoding. *)
Fixpoint Marshal (v : value) : string :=
  match v with
  | Null => "null"
  | Bool true => "true"
  | Bool false => "false"
  | Number literal => literal
  | Str s => quote s
  | Array elems =>
      "[" +:+
      (fix items (vs : list value) : string :=
         match vs with
         | [] => EmptyString
         | [x] => Marshal x
         | x :: rest => Marshal x +:+ "," +:+ items rest
         end) elems
      +:+ "]"
  | Object members =>
      "{" +:+
      (fix items (kvs : list (string * value)) : string :=
         match kvs with
         | [] => EmptyString
         | [(k, x)] => quote k +:+ ":" +:+ Marshal x
         | (k, x) :: rest => quote k +:+ ":" +:+ Marshal x +:+ "," +:+ items rest
         end) members
      +:+ "}"
  end.

(** What [Encoder.Encode] hands to its writer, in one [Write]: the
    encoding followed by a newline. *)
Definition Encode (v : value) : string :=
  Marshal v +:+ String (ascii_of_nat 10) EmptyString.

(** *** Decoding *)

Definition isSpace (c : ascii) : bool :=
  let n := nat_of_ascii c in (n =? 32) || (n =? 9) || (n =? 10) || (n =? 13).

Fixpoint skipSpace (s : string) : string :=
  match s with
  | String c s' => if isSpace c then skipSpace s' else s
  | EmptyString => EmptyString
  end.

Definition hexVal (c : ascii) : option N :=
  let n := N_of_ascii c in
  (if (48 <=? n) && (n <=? 57) then Some (n - 48)
   else if (97 <=? n) && (n <=? 102) then Some (n - 87)
   else if (65 <=? n) && (n <=? 70) then Some (n - 55)
   else None)%N.

(** Four hexadecimal digits. *)
Definition getu4 (s : string) : option (N * string) :=
  match s with
  | String a (String b (String c (String d rest))) =>
      match hexVal a, hexVal b, hexVal c, hexVal d with
      | Some x, Some y, Some z, Some w =>
          Some ((((x * 16 + y) * 16 + z) * 16 + w)%N, rest)
      | _, _, _, _ => None
      end
  | _ => None
  end.

Definition byte (n : N) : string := String (ascii_of_N n) EmptyString.

(** The UTF-8 encoding of a code point. *)
Definition utf8 (r : N) : string :=
  (if r <? 128 then byte r
   else if r <? 2048 then byte (192 + r / 64) +:+ byte (128 + r mod 64)
   else if r <? 65536 then
     byte (224 + r / 4096) +:+ byte (128 + (r / 64) mod 64) +:+ byte (128 + r mod 64)
   else
     byte (240 + r / 262144) +:+ byte (128 + (r / 4096) mod 64)
     +:+ byte (128 + (r / 64) mod 64) +:+ byte (128 + r mod 64))%N.

Definition replacementChar : N := 65533.

(** A [\u] escape whose four digits have been read as [r]: a high
    surrogate followed by an escaped low surrogate is one code point, any
    other surrogate the replacement character. *)
Definition unescapeU (r : N) (rest : string) : string * string :=
  if ((55296 <=? r) && (r <? 57344))%N then
    match rest with
    | String "\" (String "u" rest') =>
        match getu4 rest' with
        | Some (r1, rest'') =>
            if ((r <? 56320) && (56320 <=? r1) && (r1 <? 57344))%N
            then (utf8 ((r - 55296) * 1024 + (r1 - 56320) + 65536)%N, rest'')
            else (utf8 replacementChar, rest)
        | None => (utf8 replacementChar, rest)
        end
    | _ => (utf8 replacementChar, rest)
    end
  else (utf8 r, rest).

(** The rest of a string literal after its opening quote: the decoded
    bytes and what follows the closing quote. *)
Fixpoint parseString (fuel : nat) (s : string) : option (string * string) :=
  match fuel with
  | 0 => None
  | S fuel' =>
    match s with
    | EmptyString => None
    | String c s' =>
        let n := nat_of_ascii c in
        if n =? 34 then Some (EmptyString, s')
        else if n =? 92 then
          match s' with
          | EmptyString => None
          | String e s'' =>
              let plain (b : N) :=
                '(t, rest) ← parseString fuel' s''; Some (byte b +:+ t, rest) in
              let m := nat_of_ascii e in
              if (m =? 34) || (m =? 92) || (m =? 47) then plain (N.of_nat m)
              else if m =? 98 then plain 8%N
              else if m =? 102 then plain 12%N
              else if m =? 110 then plain 10%N
              else if m =? 114 then plain 13%N
              else if m =? 116 then plain 9%N
              else if m =? 117 then
                '(r, rest) ← getu4 s'';
                let '(bytes, rest') := unescapeU r rest in
                '(t, rest'') ← parseString fuel' rest'; Some (bytes +:+ t, rest'')
              else None
          end
        else if n <? 32 then None
        else '(t, rest) ← parseString fuel' s'; Some (String c t, rest)
    end
  end.

Fixpoint spanDigits (s : string) : string * string :=
  match s with
  | String c s' =>
      if strconv.isDigit c
      then let '(d, rest) := spanDigits s' in (String c d, rest)
      else (EmptyString, s)
  | EmptyString => (EmptyString, EmptyString)
  end.

(** A number literal: an optional minus, then [0] or digits that do not
    start with [0], then an optional fraction (a dot and digits) and an
    optional exponent ([e] or [E], an optional sign, digits). *)
Definition parseNumber (s : string) : option (string * string) :=
  let '(sign, s1) :=
    match s with String "-" t => ("-", t) | _ => (EmptyString, s) end in
  let '(int, s2) := spanDigits s1 in
  match int with
  | EmptyString => None
  | String "0" (String _ _) => None
  | _ =>
    '(frac, s3) ←
      match s2 with
      | String "." t =>
          let '(d, rest) := spanDigits t in
          match d with EmptyString => None | _ => Some ("." +:+ d, rest) end
      | _ => Some (EmptyString, s2)
      end;
    '(exp, s4) ←
      match s3 with
      | String e t =>
          if (Ascii.eqb e "e" || Ascii.eqb e "E")%char then
            let '(esign, t') :=
              match t with
              | String "+" u => ("+", u)
              | String "-" u => ("-", u)
              | _ => (EmptyString, t)
              end in
            let '(d, rest) := spanDigits t' in
            match d with
            | EmptyString => None
            | _ => Some (String e esign +:+ d, rest)
            end
          else Some (EmptyString, s3)
      | EmptyString => Some (EmptyString, s3)
      end;
    Some (sign +:+ int +:+ frac +:+ exp, s4)
  end.

Fixpoint dropBytes (n : nat) (s : string) : string :=
  match n, s with
  | S n', String _ s' => dropBytes n' s'
  | _, _ => s
  end.

(** A value, an array's elements after the bracket and an object's
    members after the brace.  [fuel] bounds the nesting of the calls;
    twice the length of the input and two more always suffices. *)
Fixpoint parseValue (fuel : nat) (s : string) : option (value * string) :=
  match fuel with
  | 0 => None
  | S fuel' =>
    match skipSpace s with
    | EmptyString => None
    | String c rest =>
        let n := nat_of_ascii c in
        if n =? 123 then
          match skipSpace rest with
          | String "}" rest' => Some (Object [], rest')
          | _ => '(kvs, rest') ← parseMembers fuel' rest; Some (Object kvs, rest')
          end
        else if n =? 91 then
          match skipSpace rest with
          | String "]" rest' => Some (Array [], rest')
          | _ => '(vs, rest') ← parseElems fuel' rest; Some (Array vs, rest')
          end
        else if n =? 34 then
          '(str, rest') ← parseString (String.length rest) rest; Some (Str str, rest')
        else if (n =? 45) || strconv.isDigit c then
          '(lit, rest') ← parseNumber (String c rest); Some (Number lit, rest')
        else if String.prefix "true" (String c rest)
          then Some (Bool true, dropBytes 4 (String c rest))
        else if String.prefix "false" (String c rest)
          then Some (Bool false, dropBytes 5 (String c rest))
        else if String.prefix "null" (String c rest)
          then Some (Null, dropBytes 4 (String c rest))
        else None
    end
  end
with parseElems (fuel : nat) (s : string) : option (list value * string) :=
  match fuel with
  | 0 => None
  | S fuel' =>
    '(v, rest) ← parseValue fuel' s;
    match skipSpace rest with
    | String "," rest' => '(vs, rest'') ← parseElems fuel' rest'; Some (v :: vs, rest'')
    | String "]" rest' => Some ([v], rest')
    | _ => None
    end
  end
with parseMembers (fuel : nat) (s : string) : option (list (string * value) * string) :=
  match fuel with
  | 0 => None
  | S fuel' =>
    match skipSpace s with
    | String q rest =>
        if nat_of_ascii q =? 34 then
          '(k, rest1) ← parseString (String.length rest) rest;
          match skipSpace rest1 with
          | String ":" rest2 =>
              '(v, rest3) ← parseValue fuel' rest2;
              match skipSpace rest3 with
              | String "," rest4 =>
                  '(kvs, rest5) ← parseMembers fuel' rest4; Some ((k, v) :: kvs, rest5)
              | String "}" rest4 => Some ([(k, v)], rest4)
              | _ => None
              end
          | _ => None
          end
        else None
    | EmptyString => None
    end
  end.

(** The one value of a well-formed document: a value with white space
    around it and nothing else. *)
Definition parse (data : string) : option value :=
  '(v, rest) ← parseValue (2 * String.length data + 2) data;
  match skipSpace rest with
  | EmptyString => Some v
  | _ => None
  end.

Definition syntaxError : error :=
  libraryError "encoding/json" "invalid JSON".
Definition unmarshalTypeError (what field : string) : error :=
  libraryError "encoding/json"
    ("json: cannot unmarshal " +:+ what +:+ " into Go struct field " +:+ field).

(** The name of a JSON value in a type error. *)
Definition kindName (v : value) : string :=
  match v with
  | Null => "null"
  | Bool _ => "bool"
  | Number _ => "number"
  | Str _ => "string"
  | Array _ => "array"
  | Object _ => "object"
  end.

(** [json.Unmarshal] is driven by the dynamic type of its target; a
    target type comes with the way a value is stored into it. *)
Class Target (T : Type) := store : value → T → T * option error.

(** [json.Unmarshal(data, &v)] for a [v] that holds a pointer to a [T]:
    the whole input is checked first, and nothing is stored when it is
    not well formed. *)
Definition Unmarshal {T : Type} `{Target T} (data : string) (v : T) : T * option error :=
  match parse data with
  | None => (v, Some syntaxError)
  | Some j => store j v
  end.

Definition lower (c : ascii) : ascii :=
  let n := nat_of_ascii c in
  if (65 <=? n) && (n <=? 90) then ascii_of_nat (n + 32) else c.

(** Equality up to the case of the ASCII letters: how a key finds its
    field when no field has exactly its name. *)
Fixpoint equalFold (a b : string) : bool :=
  match a, b with
  | EmptyString, EmptyString => true
  | String x a', String y b' => Ascii.eqb (lower x) (lower y) && equalFold a' b'
  | _, _ => false
  end.

End json.

(** ** Packages [net/http] and [net/http/httptest]

    A request as the package reads it, and the response recorder of the
    repository's tests as the implementation of the [http.ResponseWriter]
    contract: the first [WriteHeader] fixes the status, later ones are
    ignored; a [Write] before any [WriteHeader] fixes status 200.  The
    content type a recorder guesses for a response that has none is left
    out. *)

Module http.

(** [url.Values] and [http.Header]: a key has a list of values; the keys
    of a header are in canonical form. *)
Definition Get (h : gmap string (list string)) (key : string) : string :=
  match h !! key with
  | Some (v :: _) => v
  | _ => EmptyString
  end.

Definition Set_ (h : gmap string (list string)) (key value : string)
  : gmap string (list string) :=
  <[key := [value]]> h.

(** A request body: the bytes not read yet, and the error the reader
    ends with instead of the end of the stream, if any. *)
Record Reader := { unread : string; failure : option error }.

(** [io.ReadAll]: everything up to the end or the error. *)
Definition ReadAll (r : Reader) : Reader * (string * option error) :=
  ({| unread := EmptyString; failure := failure r |}, (unread r, failure r)).

Record Request := {
  Method : string;
  URL_Path : string;                      (* r.URL.Path *)
  URL_Query : gmap string (list string);  (* r.URL.Query() *)
  Header : gmap string (list string);
  Body : option Reader;                   (* None: a nil Body *)
  RemoteAddr : string;
}.

Definition StatusBadRequest : Z := 400.
Definition StatusNotFound : Z := 404.

End http.

Module httptest.

Record ResponseRecorder := {
  Code : Z;
  HeaderMap : gmap string (list string);
  Body : string;
  wroteHeader : bool;
}.

Definition NewRecorder : ResponseRecorder :=
  {| Code := 200; HeaderMap := ∅; Body := EmptyString; wroteHeader := false |}.

Definition SetHeader (rec : ResponseRecorder) (key value : string) : ResponseRecorder :=
  {| Code := Code rec; HeaderMap := http.Set_ (HeaderMap rec) key value;
     Body := Body rec; wroteHeader := wroteHeader rec |}.

Definition DelHeader (rec : ResponseRecorder) (key : string) : ResponseRecorder :=
  {| Code := Code rec; HeaderMap := delete key (HeaderMap rec);
     Body := Body rec; wroteHeader := wroteHeader rec |}.

Definition WriteHeader (rec : ResponseRecorder) (code : Z) : ResponseRecorder :=
  if wroteHeader rec then rec
  else {| Code := code; HeaderMap := HeaderMap rec; Body := Body rec; wroteHeader := true |}.

Definition Write (rec : ResponseRecorder) (buf : string)
  : ResponseRecorder * (Z * option error) :=
  let rec1 := WriteHeader rec 200 in
  ({| Code := Code rec1; HeaderMap := HeaderMap rec1;
      Body := Body rec1 +:+ buf; wroteHeader := true |},
   (Z.of_nat (String.length buf), None)).

End httptest.

(** ** Package [mows] *)

Module mows.

Import slices.

(** *** response_writer.go

    [http.ResponseWriter] is an interface; its implementations here are
    the transport (the recorder) and the package's own [responseWriter],
    which embeds another [http.ResponseWriter].  Each writer has one
    owner, so a wrapper holds the writer it wraps by value. *)

Inductive ResponseWriter :=
  | transport (rec : httptest.ResponseRecorder)
  | tracking (inner : ResponseWriter) (status size : Z).

Record responseWriter := {
  embedded : ResponseWriter;   (* the embedded http.ResponseWriter *)
  status : Z;
  size : Z;
}.

(** A [responseWriter] seen as an [http.ResponseWriter]. *)
Definition asWriter (rw : responseWriter) : ResponseWriter :=
  tracking (embedded rw) (status rw) (size rw).

(** The methods of the interface, by dynamic dispatch; the [tracking]
    cases are the methods of [responseWriter] below.  [Header] is
    promoted from the embedded writer, so it reaches the transport. *)
Fixpoint iHeaderSet (w : ResponseWriter) (key value : string) : ResponseWriter :=
  match w with
  | transport rec => transport (httptest.SetHeader rec key value)
  | tracking inner st sz => tracking (iHeaderSet inner key value) st sz
  end.

Fixpoint iHeaderDel (w : ResponseWriter) (key : string) : ResponseWriter :=
  match w with
  | transport rec => transport (httptest.DelHeader rec key)
  | tracking inner st sz => tracking (iHeaderDel inner key) st sz
  end.

Fixpoint iWriteHeader (w : ResponseWriter) (code : Z) : ResponseWriter :=
  match w with
  | transport rec => transport (httptest.WriteHeader rec code)
  | tracking inner _ sz => tracking (iWriteHeader inner code) code sz
  end.

Fixpoint iWrite (w : ResponseWriter) (b : string) : ResponseWriter * (Z * option error) :=
  match w with
  | transport rec =>
      let '(rec', res) := httptest.Write rec b in (transport rec', res)
  | tracking inner st sz =>
      let '(inner', (n, err)) := iWrite inner b in
      (tracking inner' st (intAdd sz n), (n, err))
  end.

(** The transport at the bottom of a stack of writers. *)
Fixpoint underlying (w : ResponseWriter) : httptest.ResponseRecorder :=
  match w with
  | transport rec => rec
  | tracking inner _ _ => underlying inner
  end.

Definition newResponseWriter (w : ResponseWriter) : responseWriter :=
  {| embedded := w; status := 200; size := 0 |}.

(** [WriteHeader] of [responseWriter] *)
Definition WriteHeader (rw : responseWriter) (code : Z) : responseWriter :=
  {| embedded := iWriteHeader (embedded rw) code; status := code; size := size rw |}.

(** [Write] of [responseWriter] *)
Definition Write (rw : responseWriter) (b : string) : responseWriter * (Z * option error) :=
  let '(inner, (n, err)) := iWrite (embedded rw) b in
  ({| embedded := inner; status := status rw; size := intAdd (size rw) n |}, (n, err)).

(** *** context.go *)

(** The [engine] field gives access to the validator and the templates,
    which are outside this development. *)
Record Context := {
  Writer : responseWriter;
  Request : http.Request;
  Params : option (gmap string string);   (* None: a nil map *)
  Status : Z;
}.

Definition NewContext (w : responseWriter) (r : http.Request) : Context :=
  {| Writer := w; Request := r; Params := Some ∅; Status := 200 |}.

Definition setWriter (c : Context) (w : responseWriter) : Context :=
  {| Writer := w; Request := Request c; Params := Params c; Status := Status c |}.

Definition setParams (c : Context) (p : option (gmap string string)) : Context :=
  {| Writer := Writer c; Request := Request c; Params := p; Status := Status c |}.

Definition setBody (c : Context) (b : option http.Reader) : Context :=
  let r := Request c in
  {| Writer := Writer c;
     Request := {| http.Method := http.Method r; http.URL_Path := http.URL_Path r;
                   http.URL_Query := http.URL_Query r; http.Header := http.Header r;
                   http.Body := b; http.RemoteAddr := http.RemoteAddr r |};
     Params := Params c; Status := Status c |}.

(** [c.JSON(code, v)]: the encoder is given the embedded writer,
    [c.Writer.ResponseWriter]. *)
Definition JSON (c : Context) (code : Z) (v : json.value) : Context * option error :=
  let w := Writer c in
  let w1 := {| embedded := iHeaderSet (embedded w) "Content-Type" "application/json";
               status := status w; size := size w |} in
  let w2 := WriteHeader w1 code in
  let '(inner, (_, err)) := iWrite (embedded w2) (json.Encode v) in
  (setWriter c {| embedded := inner; status := status w2; size := size w2 |}, err).

(** [c.Text(code, s)] *)
Definition Text (c : Context) (code : Z) (s : string) : Context * option error :=
  let w1 := WriteHeader (Writer c) code in
  let '(w2, (_, err)) := Write w1 s in
  (setWriter c w2, err).

(** [c.Param(key)]: reading a nil map gives the zero value. *)
Definition Param (c : Context) (key : string) : string :=
  match Params c with
  | Some params => default EmptyString (params !! key)
  | None => EmptyString
  end.

(** [c.BindJSON(v)], for a [v] that holds a pointer to a [T]; the value
    behind the pointer is passed in and returned. *)
Definition BindJSON {T : Type} `{json.Target T} (c : Context) (v : T)
  : Context * T * option error :=
  match http.Body (Request c) with
  | None => (c, v, Some (errors_New "request body is empty"))
  | Some reader =>
      let contentType := http.Get (http.Header (Request c)) "Content-Type" in
      if negb (strings.Contains contentType "application/json")
      then (c, v, Some (errors_New "content-type must be application/json"))
      else
        let '(reader', (body, err)) := http.ReadAll reader in
        let c' := setBody c (Some reader') in
        match err with
        | Some e => (c', v, Some e)
        | None =>
            if String.length body =? 0
            then (c', v, Some (errors_New "empty json body"))
            else
              match json.Unmarshal body v with
              | (v', Some e) => (c', v', Some e)
              | (v', None) => (c', v', None)
              end
        end
  end.

(** [c.Query(key)] *)
Definition Query (c : Context) (key : string) : string :=
  http.Get (http.URL_Query (Request c)) key.

Definition DefaultQuery (c : Context) (key defaultValue : string) : string :=
  let val := Query c key in
  if String.eqb val EmptyString then defaultValue else val.

Definition QueryInt (c : Context) (key : string) : Z * option error :=
  let val := Query c key in
  if String.eqb val EmptyString then (0%Z, None) else strconv.Atoi val.

Definition DefaultQueryInt (c : Context) (key : string) (defaultValue : Z) : Z :=
  let val := Query c key in
  if String.eqb val EmptyString then defaultValue
  else match strconv.Atoi val with
       | (_, Some _) => defaultValue
       | (i, None) => i
       end.

Definition QueryBool (c : Context) (key : string) : bool * option error :=
  let val := Query c key in
  if String.eqb val EmptyString then (false, None) else strconv.ParseBool val.

Definition DefaultQueryBool (c : Context) (key : string) (defaultValue : bool) : bool :=
  let val := Query c key in
  if String.eqb val EmptyString then defaultValue
  else match strconv.ParseBool val with
       | (_, Some _) => defaultValue
       | (b, None) => b
       end.

(** *** middleware.go

    A handler receives the context by pointer and may change anything
    its closure reaches: it is a function on the context together with
    the state of the application, here a journal of strings. *)

Record World := { ctx : Context; journal : list string }.

Definition HandlerFunc := World → World * option error.

Definition Middleware := HandlerFunc → HandlerFunc.

(** The zero value that fills the cells of a fresh array past its
    length; no slice of the package reaches those cells. *)
#[global] Instance Middleware_inhabited : Inhabited Middleware := populate (λ next, next).

(** errors.go *)
Record serverError := { Error_ : string }.   (* tagged json:"error" *)

Definition serverError_json (v : serverError) : json.value :=
  json.Object [("error", json.Str (Error_ v))].

(** *** router.go *)

Record route := { handler : HandlerFunc; middlewares : slice }.

Record paramRoute := { pathParts : list string; route_ : route }.

(** A missing key of [staticRoutes] reads as a nil map and a missing key
    of [paramRoutes] as a nil slice.  The slice of a method is only ever
    replaced by the result of appending to it, so it is the list of its
    elements. *)
Record Router := {
  staticRoutes : gmap string (gmap string route);
  paramRoutes : gmap string (list paramRoute);
}.

Definition NewRouter : Router := {| staticRoutes := ∅; paramRoutes := ∅ |}.

(** The inner loop of [find]: [i] is the index of the first part of
    [parts], [params] the map filled so far; [None] is [match = false]. *)
Fixpoint matchParts (parts : list string) (i : nat) (requestParts : list string)
    (params : gmap string string) : option (gmap string string) :=
  match parts with
  | [] => Some params
  | part :: parts' =>
      if strings.HasPrefix part ":" then
        let key := strings.from1 part in
        matchParts parts' (S i) requestParts (<[key := requestParts !!! i]> params)
      else if negb (String.eqb part (requestParts !!! i)) then None
      else matchParts parts' (S i) requestParts params
  end.

(** The outer loop of [find], over [r.paramRoutes[method]]. *)
Fixpoint scan (candidates : list paramRoute) (requestParts : list string)
  : option route * option (gmap string string) :=
  match candidates with
  | [] => (None, None)
  | paramRoute :: candidates' =>
      if negb (length (pathParts paramRoute) =? length requestParts)
      then scan candidates' requestParts
      else
        match matchParts (pathParts paramRoute) 0 requestParts ∅ with
        | Some params => (Some (route_ paramRoute), Some params)
        | None => scan candidates' requestParts
        end
  end.

Definition find (r : Router) (method path : string)
  : option route * option (gmap string string) :=
  let static :=
    match staticRoutes r !! method with
    | Some m => m !! path
    | None => None
    end in
  match static with
  | Some route => (Some route, None)
  | None =>
      let requestParts := strings.Split (strings.Trim path "/") "/" in
      scan (default [] (paramRoutes r !! method)) requestParts
  end.

Definition wrapHandlerAsMiddleware (h : HandlerFunc) : Middleware :=
  λ next c,
    match h c with
    | (c1, Some err) => (c1, Some err)
    | (c1, None) =>
        match next c1 with
        | (c2, Some err) => (c2, Some err)
        | (c2, None) => (c2, None)
        end
    end.

Definition hasParams (path : string) : bool := strings.Contains path ":".

Definition addWithMiddleware (r : Router) (method path : string)
    (handler : HandlerFunc) (middlewares : slice) : Router :=
  let rt := {| handler := handler; middlewares := middlewares |} in
  if negb (hasParams path) then
    let m := default ∅ (staticRoutes r !! method) in
    {| staticRoutes := <[method := <[path := rt]> m]> (staticRoutes r);
       paramRoutes := paramRoutes r |}
  else
    let parts := strings.Split (strings.Trim path "/") "/" in
    {| staticRoutes := staticRoutes r;
       paramRoutes :=
         <[method := default [] (paramRoutes r !! method)
                     ++ [{| pathParts := parts; route_ := rt |}]]> (paramRoutes r) |}.

(** *** group.go and engine.go

    [RouterGroup.engine] points to the one engine; the functions that
    follow that pointer take the engine as an argument. *)

Record RouterGroup := { prefix : string; rg_middlewares : slice }.

Definition ErrorHandler := World → error → World.

(** The server, the validator, the templates and the dev-mode flag play
    no part in dispatch. *)
Record Engine := {
  router : Router;
  e_middlewares : slice;
  rootGroup : RouterGroup;
  errorHandler : ErrorHandler;
}.

(** A call that returns, or one that panics, with the state it leaves. *)
Inductive outcome (S : Type) :=
  | Returns (s : S)
  | Panics (msg : string) (s : S).
Arguments Returns {S} s.
Arguments Panics {S} msg s.

Definition defaultErrorHandler (c : World) (err : error) : World :=
  let '(ctx', _) := JSON (ctx c) http.StatusBadRequest
                      (serverError_json {| Error_ := Error err |}) in
  {| ctx := ctx'; journal := journal c |}.

Definition New : Engine :=
  {| router := NewRouter;
     e_middlewares := nil;
     rootGroup := {| prefix := EmptyString; rg_middlewares := nil |};
     errorHandler := defaultErrorHandler |}.

Definition SetErrorHandler (e : Engine) (h : ErrorHandler) : Engine :=
  {| router := router e; e_middlewares := e_middlewares e;
     rootGroup := rootGroup e; errorHandler := h |}.

Definition setRouter (e : Engine) (r : Router) : Engine :=
  {| router := r; e_middlewares := e_middlewares e;
     rootGroup := rootGroup e; errorHandler := errorHandler e |}.

(** [for i := n - 1; i >= 0; i-- { h = mws[i](h) }] *)
Fixpoint applyDown (mws : list Middleware) (n : nat) (h : HandlerFunc) : HandlerFunc :=
  match n with
  | 0 => h
  | S i =>
      match mws !! i with
      | Some mw => applyDown mws i (mw h)
      | None => applyDown mws i h
      end
  end.

Section registration.
Variable slack : nat → nat → nat.

(** [e.Use(m...)] *)
Definition Engine_Use (e : Engine) (mem : gmap loc (list Middleware)) (m : slice)
  : Engine * gmap loc (list Middleware) :=
  let '(s, mem') := append slack mem (e_middlewares e) (view mem m) in
  ({| router := router e; e_middlewares := s;
      rootGroup := rootGroup e; errorHandler := errorHandler e |}, mem').

(** [e.Group(prefix, m...)]: the group keeps the slice it is given. *)
Definition Engine_Group (prefix : string) (m : slice) : RouterGroup :=
  {| prefix := prefix; rg_middlewares := m |}.

(** [rg.Group(prefix, m...)] *)
Definition RouterGroup_Group (rg : RouterGroup) (mem : gmap loc (list Middleware))
    (prefix' : string) (m : slice) : RouterGroup * gmap loc (list Middleware) :=
  let '(s, mem') := append slack mem (rg_middlewares rg) (view mem m) in
  ({| prefix := prefix rg +:+ prefix'; rg_middlewares := s |}, mem').

(** [rg.Use(m...)] *)
Definition RouterGroup_Use (rg : RouterGroup) (mem : gmap loc (list Middleware))
    (m : slice) : RouterGroup * gmap loc (list Middleware) :=
  let '(s, mem') := append slack mem (rg_middlewares rg) (view mem m) in
  ({| prefix := prefix rg; rg_middlewares := s |}, mem').

(** [e.addRoute(method, path, middlewares, handlers...)].
    [routeMiddlewares] starts nil and never leaves the function: it is
    the list of its elements. *)
Definition addRoute (e : Engine) (mem : gmap loc (list Middleware))
    (method path : string) (middlewares : slice) (handlers : list HandlerFunc)
  : outcome (Engine * gmap loc (list Middleware)) :=
  if length handlers =? 0
  then Panics "route must have at least one handler" (e, mem)
  else
    match handlers !! (length handlers - 1) with
    | None => Panics "index out of range" (e, mem)
    | Some final =>
        let routeHandlers := take (length handlers - 1) handlers in
        let routeMiddlewares :=
          foldl (λ acc h, acc ++ [wrapHandlerAsMiddleware h]) [] routeHandlers in
        let '(allMiddlewares, mem') := append slack mem middlewares routeMiddlewares in
        Returns (setRouter e (addWithMiddleware (router e) method path final allMiddlewares),
                 mem')
    end.

Definition RouterGroup_GET (rg : RouterGroup) (e : Engine)
    (mem : gmap loc (list Middleware)) (path : string) (handlers : list HandlerFunc) :=
  let fullPath := prefix rg +:+ path in
  addRoute e mem "GET" fullPath (rg_middlewares rg) handlers.

Definition RouterGroup_POST (rg : RouterGroup) (e : Engine)
    (mem : gmap loc (list Middleware)) (path : string) (handlers : list HandlerFunc) :=
  let fullPath := prefix rg +:+ path in
  addRoute e mem "POST" fullPath (rg_middlewares rg) handlers.

Definition RouterGroup_PUT (rg : RouterGroup) (e : Engine)
    (mem : gmap loc (list Middleware)) (path : string) (handlers : list HandlerFunc) :=
  let fullPath := prefix rg +:+ path in
  addRoute e mem "PUT" fullPath (rg_middlewares rg) handlers.

Definition RouterGroup_DELETE (rg : RouterGroup) (e : Engine)
    (mem : gmap loc (list Middleware)) (path : string) (handlers : list HandlerFunc) :=
  let fullPath := prefix rg +:+ path in
  addRoute e mem "DELETE" fullPath (rg_middlewares rg) handlers.

Definition GET (e : Engine) mem path handlers :=
  RouterGroup_GET (rootGroup e) e mem path handlers.
Definition POST (e : Engine) mem path handlers :=
  RouterGroup_POST (rootGroup e) e mem path handlers.
Definition PUT (e : Engine) mem path handlers :=
  RouterGroup_PUT (rootGroup e) e mem path handlers.
Definition DELETE (e : Engine) mem path handlers :=
  RouterGroup_DELETE (rootGroup e) e mem path handlers.

End registration.

(** [e.buildChain(final)] *)
Definition buildChain (e : Engine) (mem : gmap loc (list Middleware))
    (final : HandlerFunc) : HandlerFunc :=
  let mws := view mem (e_middlewares e) in
  applyDown mws (length mws) final.

(** [http.NotFound(w, r)] *)
Definition NotFound (w : ResponseWriter) : ResponseWriter :=
  let w1 := iHeaderDel w "Content-Length" in
  let w2 := iHeaderSet w1 "Content-Type" "text/plain; charset=utf-8" in
  let w3 := iHeaderSet w2 "X-Content-Type-Options" "nosniff" in
  let w4 := iWriteHeader w3 http.StatusNotFound in
  fst (iWrite w4 ("404 page not found" +:+ String (ascii_of_nat 10) EmptyString)).

(** The handler [handle] assembles for a matched route. *)
Definition assemble (e : Engine) (mem : gmap loc (list Middleware)) (rt : route)
  : HandlerFunc :=
  let mws := view mem (middlewares rt) in
  let h := applyDown mws (length mws) (handler rt) in
  buildChain e mem h.

(** [e.handle(w, r)], started in application state [app]; the result is
    the context, whose writer wraps [w], and the application state. *)
Definition handle (e : Engine) (mem : gmap loc (list Middleware))
    (w : ResponseWriter) (r : http.Request) (app : list string) : World :=
  let rw := newResponseWriter w in
  let c := NewContext rw r in
  match find (router e) (http.Method r) (http.URL_Path r) with
  | (None, _) =>
      {| ctx := setWriter c {| embedded := NotFound w; status := status rw;
                               size := size rw |};
         journal := app |}
  | (Some route, params) =>
      let c := setParams c params in
      let final := assemble e mem route in
      match final {| ctx := c; journal := app |} with
      | (c', Some err) => errorHandler e c' err
      | (c', None) => c'
      end
  end.

(** [e.ServeHTTP(w, r)] *)
Definition ServeHTTP (e : Engine) (mem : gmap loc (list Middleware))
    (w : ResponseWriter) (r : http.Request) (app : list string) : World :=
  let rw := newResponseWriter w in
  handle e mem (asWriter rw) r app.

End mows.

(** ** The struct of the binding test

    [struct { Name string `json:"name"` }], the target of [BindJSON] in the
    repository's test, and how [encoding/json] stores a value into it: an
    object sets the field from the members named [name] up to case, in
    order; [null] leaves the target as it is; the first value of another
    kind is reported once the object has been read. *)

Module tests.

Record body := { Name : string }.

Definition storeMember (acc : body * option error) (kv : string * json.value)
  : body * option error :=
  let '(v, err) := acc in
  let '(k, x) := kv in
  if json.equalFold k "name" then
    match x with
    | json.Str s => ({| Name := s |}, err)
    | json.Null => (v, err)
    | _ =>
        (v, match err with
            | Some e => Some e
            | None => Some (json.unmarshalTypeError (json.kindName x) ".name of type string")
            end)
    end
  else (v, err).

#[global] Instance body_target : json.Target body :=
  λ j v,
    match j with
    | json.Object members => foldl storeMember (v, None) members
    | json.Null => (v, None)
    | _ => (v, Some (json.unmarshalTypeError (json.kindName j) "value of type struct"))
    end.

End tests.

Import mows.

(** ** Registration histories

    The route table of a running application is what a sequence of
    registrations made of the empty table. *)

Record registration := {
  reg_method : string;
  reg_path : string;
  reg_handler : HandlerFunc;
  reg_middlewares : slices.slice;
}.

Definition register (r : Router) (reg : registration) : Router :=
  addWithMiddleware r (reg_method reg) (reg_path reg) (reg_handler reg) (reg_middlewares reg).

Definition registerAll (regs : list registration) : Router :=
  foldl register NewRouter regs.

(** The route a registration asks for. *)
Definition routeOf (reg : registration) : route :=
  {| handler := reg_handler reg; middlewares := reg_middlewares reg |}.

Definition sameKey (a b : registration) : bool :=
  String.eqb (reg_method a) (reg_method b) && String.eqb (reg_path a) (reg_path b).

(** The entry of the static table for a method and a path. *)
Definition staticLookup (r : Router) (method path : string) : option route :=
  staticRoutes r !! method ≫= (.!! path).

(** ** The scan over parameterized routes, in the words of the specification

    A candidate is the pattern of a registration of the method whose path
    has a parameter.  It matches a request of the same number of segments
    when every segment is a capture or equals the request segment; the
    captures bind their names, in order, to the request segments. *)

Definition isCapture (seg : string) : bool := strings.HasPrefix seg ":".

Definition captureName (seg : string) : string := strings.from1 seg.

Definition segmentAccepts (seg requestSeg : string) : bool :=
  isCapture seg || String.eqb seg requestSeg.

Definition candidateMatches (parts requestParts : list string) : bool :=
  (length parts =? length requestParts)
  && forallb (λ pr, segmentAccepts pr.1 pr.2) (zip parts requestParts).

Definition bind (params : gmap string string) (pr : string * string) : gmap string string :=
  if isCapture pr.1 then <[captureName pr.1 := pr.2]> params else params.

Definition bindings (parts requestParts : list string) : gmap string string :=
  foldl bind ∅ (zip parts requestParts).

Definition segmentsOf (path : string) : list string :=
  strings.Split (strings.Trim path "/") "/".

Definition isParamRegistration (method : string) (reg : registration) : bool :=
  String.eqb (reg_method reg) method && hasParams (reg_path reg).

(** The candidates of a method, in registration order. *)
Definition candidatesOf (method : string) (regs : list registration) : list registration :=
  List.filter (isParamRegistration method) regs.

(** The earliest candidate that matches. *)
Definition firstMatch (requestParts : list string) (cands : list registration)
  : option registration :=
  List.find (λ reg, candidateMatches (segmentsOf (reg_path reg)) requestParts) cands.

Definition toParamRoute (reg : registration) : paramRoute :=
  {| pathParts := segmentsOf (reg_path reg); route_ := routeOf reg |}.

(** ** Sample handlers and routes *)

(** A handler that answers with a text, as the handlers of the tests do. *)
Definition respond (code : Z) (text : string) : HandlerFunc :=
  λ w, let '(c, err) := Text (ctx w) code text in
       ({| ctx := c; journal := journal w |}, err).

(** A handler that answers with a JSON document. *)
Definition respondJSON (code : Z) (v : json.value) : HandlerFunc :=
  λ w, let '(c, err) := JSON (ctx w) code v in
       ({| ctx := c; journal := journal w |}, err).

(** A handler that returns an error and writes nothing. *)
Definition failWith (msg : string) : HandlerFunc :=
  λ w, (w, Some (errors_New msg)).

Definition regUserById : registration :=
  {| reg_method := "GET"; reg_path := "/users/:id";
     reg_handler := respond 200 "by id"; reg_middlewares := slices.nil |}.

Definition regUserMe : registration :=
  {| reg_method := "GET"; reg_path := "/users/me";
     reg_handler := respond 200 "me"; reg_middlewares := slices.nil |}.

Definition regAnyPair : registration :=
  {| reg_method := "GET"; reg_path := "/:kind/:name";
     reg_handler := respond 200 "pair"; reg_middlewares := slices.nil |}.

Definition regPostMe : registration :=
  {| reg_method := "POST"; reg_path := "/users/me";
     reg_handler := respond 201 "posted"; reg_middlewares := slices.nil |}.

(** ** Sample middleware and groups *)

Definition note (entry : string) (w : World) : World :=
  {| ctx := ctx w; journal := journal w ++ [entry] |}.

Definition noteAll (entries : list string) (w : World) : World :=
  {| ctx := ctx w; journal := journal w ++ entries |}.

Definition entering (name : string) : string := "enter " +:+ name.
Definition leaving (name : string) : string := "leave " +:+ name.
Definition running (name : string) : string := "run " +:+ name.

(** A middleware in the style of the package's logger: it notes that it
    was entered, calls [next] unless it is set to fail, and notes that it
    was left on the way back. *)
Definition stage (name : string) (fail : option error) : Middleware :=
  λ next w,
    let w1 := note (entering name) w in
    match fail with
    | Some err => (note (leaving name) w1, Some err)
    | None => let '(w2, r) := next w1 in (note (leaving name) w2, r)
    end.

(** A handler that notes that it ran and returns the given result. *)
Definition step (name : string) (result : option error) : HandlerFunc :=
  λ w, (note (running name) w, result).

(** The nesting the specification describes: the first middleware of the
    list is the outermost wrapper, [m0 (m1 (... (mn h)))]. *)
Definition chain (mws : list Middleware) (h : HandlerFunc) : HandlerFunc :=
  foldr (λ mw inner, mw inner) h mws.

(** A memory with one array of four cells, two of them in use by the
    group [/api], and the one-cell arrays of two variadic arguments. *)
Definition sampleMem : gmap slices.loc (list Middleware) :=
  {[ 1%positive := [stage "auth" None; stage "log" None; inhabitant; inhabitant];
     2%positive := [stage "audit" None];
     3%positive := [stage "trace" None] ]}.

Definition apiGroup : RouterGroup :=
  {| prefix := "/api"; rg_middlewares := slices.Slice 1%positive 0 2 4 |}.

Definition auditArg : slices.slice := slices.Slice 2%positive 0 1 1.

Definition traceArg : slices.slice := slices.Slice 3%positive 0 1 1.

(** A growth policy like the Go runtime's for short slices: a fresh array
    has room for twice the old capacity when that is enough. *)
Definition doubling (oldCap needed : nat) : nat := 2 * oldCap - needed.

(** An engine whose global middleware is the one-cell array of
    [sampleMem], and a request as the test server makes them. *)
Definition sampleEngine : Engine :=
  {| router := NewRouter; e_middlewares := auditArg;
     rootGroup := {| prefix := EmptyString; rg_middlewares := slices.nil |};
     errorHandler := defaultErrorHandler |}.

Definition request (method path : string) : http.Request :=
  {| http.Method := method; http.URL_Path := path; http.URL_Query := ∅;
     http.Header := ∅;
     http.Body := Some {| http.unread := EmptyString; http.failure := None |};
     http.RemoteAddr := "192.0.2.1:1234" |}.

(** The world [handle] starts a chain in: a fresh recorder behind a fresh
    wrapper, and the given application state. *)
Definition startWorld (w : ResponseWriter) (r : http.Request)
    (params : option (gmap string string)) (app : list string) : World :=
  {| ctx := setParams (NewContext (newResponseWriter w) r) params; journal := app |}.

Definition newline : string := String (ascii_of_nat 10) EmptyString.

Definition quoted (s : string) : string := dquote +:+ s +:+ dquote.

(** An error handler that only notes that it was called, and with what. *)
Definition recordingErrorHandler : ErrorHandler :=
  λ c err, note ("error handler: " +:+ Error err) c.

(** The application of the user-API example, reduced to the route whose
    handler does not find its user. *)
Definition userApp : Engine * gmap slices.loc (list Middleware) :=
  match GET doubling New ∅ "/users/:id" [failWith "user not found"] with
  | Returns st => st
  | Panics _ st => st
  end.

(** The application of the repository's full-flow test: one route that
    answers with a JSON document. *)
Definition pingApp : Engine * gmap slices.loc (list Middleware) :=
  match GET doubling New ∅ "/ping"
          [respondJSON 200 (json.Object [("pong", json.Str "yes")])] with
  | Returns st => st
  | Panics _ st => st
  end.

(** The application of the route test: one route that answers with a
    text. *)
Definition helloApp : Engine * gmap slices.loc (list Middleware) :=
  match GET doubling New ∅ "/hello" [respond 200 "world"] with
  | Returns st => st
  | Panics _ st => st
  end.

(** An application with one middleware at each level: a global one, one
    on the group [/api], one added by the nested group [/team], and a
    route with one handler before its last.  The arrays at 10, 11 and 12
    are those of the variadic arguments. *)
Definition argMem : gmap slices.loc (list Middleware) :=
  {[ 10%positive := [stage "global" None];
     11%positive := [stage "auth" None];
     12%positive := [stage "team" None] ]}.

Definition layeredApp (check : option error) : Engine * gmap slices.loc (list Middleware) :=
  let '(e1, m1) := Engine_Use doubling New argMem (slices.Slice 10%positive 0 1 1) in
  let api := Engine_Group "/api" (slices.Slice 11%positive 0 1 1) in
  let '(team, m2) := RouterGroup_Group doubling api m1 "/team" (slices.Slice 12%positive 0 1 1) in
  match RouterGroup_GET doubling team (SetErrorHandler e1 recordingErrorHandler) m2 "/x"
          [step "check" check; step "handler" None] with
  | Returns st => st
  | Panics _ st => st
  end.

(** The recorder at the bottom of the writer of a world. *)
Definition recorderOf (w : World) : httptest.ResponseRecorder :=
  underlying (embedded (Writer (ctx w))).

(** ** JSON binding: requests, and the claim as the specification words it *)

Definition postUsers (headers : gmap string (list string)) (body : option http.Reader)
  : Context :=
  NewContext (newResponseWriter (transport httptest.NewRecorder))
    {| http.Method := "POST"; http.URL_Path := "/users"; http.URL_Query := ∅;
       http.Header := headers; http.Body := body; http.RemoteAddr := "192.0.2.1:1234" |}.

Definition jsonHeader : gmap string (list string) :=
  {[ "Content-Type" := ["application/json"] ]}.

Definition bytesReader (s : string) : http.Reader :=
  {| http.unread := s; http.failure := None |}.

(** The bodies [{"name":"mows"}] and [{"name":5}]. *)
Definition nameMows : string := "{" +:+ quoted "name" +:+ ":" +:+ quoted "mows" +:+ "}".
Definition nameFive : string := "{" +:+ quoted "name" +:+ ":5}".

Definition hasJSONContentType (c : Context) : Prop :=
  strings.Contains (http.Get (http.Header (Request c)) "Content-Type") "application/json"
  = true.

Definition contentTypeError : error := errors_New "content-type must be application/json".
Definition emptyBodyError : error := errors_New "empty json body".
Definition noBodyError : error := errors_New "request body is empty".

(** The three sentences of the claim, each read on its own: success for a
    JSON content type and a well-formed body; the content-type error
    whenever the header does not mention JSON; the empty-body error
    whenever the body is there and has no bytes. *)
Definition bindJSON_as_stated : Prop :=
  ∀ (c : Context) (v : tests.body),
    (hasJSONContentType c →
     (∃ rd j, http.Body (Request c) = Some rd ∧ http.failure rd = None
              ∧ json.parse (http.unread rd) = Some j) →
     (BindJSON c v).2 = None)
    ∧ (¬ hasJSONContentType c → (BindJSON c v).2 = Some contentTypeError)
    ∧ ((∃ rd, http.Body (Request c) = Some rd ∧ http.failure rd = None
              ∧ http.unread rd = EmptyString) →
       (BindJSON c v).2 = Some emptyBodyError).

(** ** Further words of the specification, and further samples *)

(** Handlers run one after the other on the state the one before left,
    up to and including the first that returns an error. *)
Fixpoint runInOrder (hs : list HandlerFunc) (w : World) : World * option error :=
  match hs with
  | [] => (w, None)
  | h :: rest =>
      match h w with
      | (w1, Some err) => (w1, Some err)
      | (w1, None) => runInOrder rest w1
      end
  end.

(** What [http.NotFound] makes of a recorder. *)
Definition notFoundResponse (rec : httptest.ResponseRecorder) : httptest.ResponseRecorder :=
  (httptest.Write
     (httptest.WriteHeader
        (httptest.SetHeader
           (httptest.SetHeader (httptest.DelHeader rec "Content-Length")
              "Content-Type" "text/plain; charset=utf-8")
           "X-Content-Type-Options" "nosniff")
        http.StatusNotFound)
     ("404 page not found" +:+ newline)).1.

(** A handler that answers with a text and then returns an error. *)
Definition respondThenFail (code : Z) (text msg : string) : HandlerFunc :=
  λ w, let '(c, _) := Text (ctx w) code text in
       ({| ctx := c; journal := journal w |}, Some (errors_New msg)).

(** The application whose one route answers 200 and then fails. *)
Definition halfDoneApp : Engine * gmap slices.loc (list Middleware) :=
  match GET doubling New ∅ "/half" [respondThenFail 200 "partial" "late failure"] with
  | Returns st => st
  | Panics _ st => st
  end.

(** The request segments that stand where a pattern has the capture of a
    name, in order. *)
Definition capturedAs (name : string) (parts requestParts : list string) : list string :=
  omap (λ pr : string * string,
          if isCapture pr.1 && String.eqb (captureName pr.1) name then Some pr.2 else None)
       (zip parts requestParts).

(** A request whose query has one value for one key. *)
Definition requestWithQuery (path key value : string) : http.Request :=
  {| http.Method := "GET"; http.URL_Path := path;
     http.URL_Query := {[ key := [value] ]};
     http.Header := ∅;
     http.Body := Some {| http.unread := EmptyString; http.failure := None |};
     http.RemoteAddr := "192.0.2.1:1234" |}.

(** The struct of the binding test as [encoding/json] encodes it. *)
Definition bodyJSON (v : tests.body) : json.value :=
  json.Object [("name", json.Str (tests.Name v))].

(** The status and the size a writer has recorded, when it is a
    [responseWriter]. *)
Definition recorded (w : ResponseWriter) : option (Z * Z) :=
  match w with
  | tracking _ st sz => Some (st, sz)
  | transport _ => None
  end.

(** A pattern shadows another of the same number of segments when each of
    its segments is a capture or is the other's segment, that one being no
    capture. *)
Definition shadows (parts parts' : list string) : bool :=
  (length parts =? length parts')
  && forallb (λ pr, isCapture pr.1 || (negb (isCapture pr.2) && String.eqb pr.1 pr.2))
       (zip parts parts').

Definition regUserByName : registration :=
  {| reg_method := "GET"; reg_path := "users/:name/";
     reg_handler := respond 200 "by name"; reg_middlewares := slices.nil |}.

(** * Properties *)

(** ** Slices: what [append] returns and what it leaves alone *)

Section slice_facts.
Context {A : Type} `{Inhabited A}.
Variable slack : nat → nat → nat.
Implicit Types (m : gmap slices.loc (list A)) (s t : slices.slice) (xs : list A).

Lemma view_length m s : slices.wf m s → length (slices.view m s) = slices.len s.
Proof.
  intros [Hlen Hcap]. unfold slices.view.
  rewrite length_take, length_drop. destruct Hcap as [Hz | Hin]; lia.
Qed.

Lemma view_nil m : slices.view m slices.nil = [].
Proof. reflexivity. Qed.

Lemma wf_nil m : slices.wf m slices.nil.
Proof. split; [reflexivity | by left]. Qed.

Lemma cells_insert m l (a : list A) : slices.cells (<[l := a]> m) l = a.
Proof. unfold slices.cells. by rewrite lookup_insert_eq. Qed.

Lemma cells_insert_ne m l l' (a : list A) :
  l ≠ l' → slices.cells (<[l := a]> m) l' = slices.cells m l'.
Proof. intros. unfold slices.cells. by rewrite lookup_insert_ne. Qed.

(** The three ways [append] goes. *)
Lemma append_none m s : slices.wf m s → slices.append slack m s [] = (s, m).
Proof.
  intros [Hlen _]. unfold slices.append. rewrite Nat.add_0_r.
  by rewrite decide_True by lia.
Qed.

Lemma append_in_place m s xs :
  xs ≠ [] → slices.len s + length xs ≤ slices.cap s →
  slices.append slack m s xs =
  (slices.Slice (slices.arr s) (slices.off s) (slices.len s + length xs) (slices.cap s),
   <[slices.arr s :=
       take (slices.off s + slices.len s) (slices.cells m (slices.arr s)) ++ xs ++
       drop (slices.off s + (slices.len s + length xs)) (slices.cells m (slices.arr s))]> m).
Proof.
  intros Hne Hfit. unfold slices.append. rewrite decide_True by done.
  by destruct xs.
Qed.

Lemma append_fresh m s xs :
  slices.cap s < slices.len s + length xs →
  slices.append slack m s xs =
  (slices.Slice (fresh (dom m)) 0 (slices.len s + length xs)
     (slices.len s + length xs + slack (slices.cap s) (slices.len s + length xs)),
   <[fresh (dom m) :=
       slices.view m s ++ xs ++
       replicate (slack (slices.cap s) (slices.len s + length xs)) inhabitant]> m).
Proof.
  intros Hbig. unfold slices.append. by rewrite decide_False by lia.
Qed.

(** Writing [xs] after the first [n] cells of a window leaves those
    cells and puts [xs] behind them. *)
Lemma write_window (a : list A) (o n : nat) xs (rest : list A) :
  o + n ≤ length a →
  take (n + length xs) (drop o (take (o + n) a ++ xs ++ rest))
  = take n (drop o a) ++ xs.
Proof.
  intros Hin.
  rewrite drop_app_le by (rewrite length_take; lia).
  rewrite <- take_drop_commute, app_assoc.
  rewrite take_app_le by (rewrite length_app, length_take, length_drop; lia).
  apply take_ge. rewrite length_app, length_take, length_drop. lia.
Qed.

(** The elements of the result are the old elements followed by the new
    ones, whether the array was reused or replaced. *)
Lemma append_view m s xs :
  slices.wf m s →
  slices.view (slices.append slack m s xs).2 (slices.append slack m s xs).1
  = slices.view m s ++ xs.
Proof.
  intros Hwf. pose proof (view_length m s Hwf) as Hl.
  destruct (decide (xs = [])) as [-> | Hne].
  { rewrite append_none by done. by rewrite app_nil_r. }
  assert (length xs ≠ 0) as Hpos by (destruct xs; simpl; [done | lia]).
  destruct Hwf as [Hlen Hcap].
  destruct (decide (slices.len s + length xs ≤ slices.cap s)) as [Hfit | Hbig].
  - rewrite append_in_place by done. cbn [fst snd].
    destruct Hcap as [Hz | Hin]; [lia |].
    unfold slices.view at 1. cbn [slices.arr slices.off slices.len].
    rewrite cells_insert. apply write_window. lia.
  - rewrite append_fresh by lia. cbn [fst snd].
    unfold slices.view at 1. cbn [slices.arr slices.off slices.len].
    rewrite cells_insert, drop_0, app_assoc.
    rewrite take_app_le by (rewrite length_app; lia).
    apply take_ge. rewrite length_app. lia.
Qed.

(** The slice that was appended to still shows its own elements. *)
Lemma append_keeps m s xs :
  slices.wf m s →
  slices.view (slices.append slack m s xs).2 s = slices.view m s.
Proof.
  intros Hwf.
  destruct (decide (xs = [])) as [-> | Hne].
  { by rewrite append_none. }
  assert (length xs ≠ 0) as Hpos by (destruct xs; simpl; [done | lia]).
  destruct Hwf as [Hlen Hcap].
  destruct (decide (slices.len s + length xs ≤ slices.cap s)) as [Hfit | Hbig].
  - rewrite append_in_place by done. cbn [snd].
    destruct Hcap as [Hz | Hin]; [lia |].
    unfold slices.view. rewrite cells_insert.
    set (a := slices.cells m (slices.arr s)) in *.
    rewrite drop_app_le by (rewrite length_take; lia).
    rewrite take_app_le by (rewrite length_drop, length_take; lia).
    rewrite <- take_drop_commute, take_take. f_equal. lia.
  - rewrite append_fresh by lia. cbn [snd].
    unfold slices.view.
    destruct (decide (fresh (dom m) = slices.arr s)) as [Heq | Hneq].
    + assert (m !! slices.arr s = None) as Hnone.
      { rewrite <- Heq. apply not_elem_of_dom, is_fresh. }
      assert (slices.len s = 0) as ->; [| done].
      destruct Hcap as [Hz | Hin]; [lia |].
      unfold slices.cells in Hin. rewrite Hnone in Hin. simpl in Hin. lia.
    + by rewrite cells_insert_ne.
Qed.

(** The result is again a slice within its array. *)
Lemma append_wf m s xs :
  slices.wf m s →
  slices.wf (slices.append slack m s xs).2 (slices.append slack m s xs).1.
Proof.
  intros Hwf. pose proof (view_length m s Hwf) as Hl.
  destruct (decide (xs = [])) as [-> | Hne].
  { by rewrite append_none. }
  assert (length xs ≠ 0) as Hpos by (destruct xs; simpl; [done | lia]).
  destruct Hwf as [Hlen Hcap].
  destruct (decide (slices.len s + length xs ≤ slices.cap s)) as [Hfit | Hbig].
  - rewrite append_in_place by done. cbn [fst snd].
    destruct Hcap as [Hz | Hin]; [lia |].
    split; cbn [slices.arr slices.off slices.len slices.cap]; [lia |]. right.
    rewrite cells_insert.
    rewrite !length_app, length_take, length_drop. lia.
  - rewrite append_fresh by lia. cbn [fst snd].
    split; cbn [slices.arr slices.off slices.len slices.cap]; [lia |]. right.
    rewrite cells_insert.
    rewrite !length_app, length_replicate. lia.
Qed.

End slice_facts.

(** ** The route table: static routes *)

Section static_routes.
Implicit Types (r : Router) (reg : registration) (method path : string).

Lemma find_static r method path rt :
  staticLookup r method path = Some rt → find r method path = (Some rt, None).
Proof.
  unfold staticLookup, find. intros Hl.
  destruct (staticRoutes r !! method) as [m |]; simpl in Hl; [| done].
  by rewrite Hl.
Qed.

Lemma find_no_static r method path :
  staticLookup r method path = None →
  find r method path =
  scan (default [] (paramRoutes r !! method)) (strings.Split (strings.Trim path "/") "/").
Proof.
  unfold staticLookup, find. intros Hl.
  destruct (staticRoutes r !! method) as [m |]; simpl in Hl; [| done].
  by rewrite Hl.
Qed.

Lemma staticLookup_register_same r reg :
  hasParams (reg_path reg) = false →
  staticLookup (register r reg) (reg_method reg) (reg_path reg) = Some (routeOf reg).
Proof.
  intros Hs. unfold staticLookup, register, addWithMiddleware. rewrite Hs. simpl.
  rewrite lookup_insert_eq. simpl. by rewrite lookup_insert_eq.
Qed.

Lemma staticLookup_register_other r reg method path :
  reg_method reg ≠ method ∨ reg_path reg ≠ path →
  staticLookup (register r reg) method path = staticLookup r method path.
Proof.
  intros Hne. unfold staticLookup, register, addWithMiddleware.
  destruct (hasParams (reg_path reg)); simpl; [done |].
  destruct (decide (reg_method reg = method)) as [<- | Hm].
  - rewrite lookup_insert_eq. simpl.
    destruct Hne as [Hne | Hne]; [done |]. rewrite lookup_insert_ne by done.
    by destruct (staticRoutes r !! reg_method reg).
  - by rewrite lookup_insert_ne.
Qed.

Lemma sameKey_false reg reg' :
  sameKey reg reg' = false →
  reg_method reg' ≠ reg_method reg ∨ reg_path reg' ≠ reg_path reg.
Proof.
  unfold sameKey. intros Hk. apply andb_false_iff in Hk as [Hk | Hk];
    apply String.eqb_neq in Hk; [left | right]; congruence.
Qed.

Lemma staticLookup_later reg later : ∀ r,
  forallb (λ reg', negb (sameKey reg reg')) later = true →
  staticLookup (foldl register r later) (reg_method reg) (reg_path reg)
  = staticLookup r (reg_method reg) (reg_path reg).
Proof.
  induction later as [| reg' later IH]; intros r Hall; [done |].
  simpl in Hall. apply andb_true_iff in Hall as [Hk Hall].
  apply negb_true_iff in Hk. simpl. rewrite IH by done.
  apply staticLookup_register_other. by apply sameKey_false.
Qed.

End static_routes.

(** C1. A static route is found at its exact path, with no parameters,
    whatever was registered before it and whatever was registered after
    it under another method or path: parameterized routes of the same
    shape, registered earlier or later, never take its place. *)
Theorem find_registered_static_route
    (before later : list registration) (reg : registration) :
  hasParams (reg_path reg) = false →
  forallb (λ reg', negb (sameKey reg reg')) later = true →
  find (registerAll (before ++ reg :: later)) (reg_method reg) (reg_path reg)
  = (Some (routeOf reg), None).
Proof.
  intros Hstatic Hlater. apply find_static.
  unfold registerAll. rewrite foldl_app. simpl.
  rewrite staticLookup_later by done.
  by apply staticLookup_register_same.
Qed.

Lemma find_registered_static_route_witness :
  find (registerAll [regAnyPair; regUserById; regUserMe; regUserById; regPostMe; regAnyPair])
       "GET" "/users/me"
  = (Some (routeOf regUserMe), None).
Proof.
  apply (find_registered_static_route [regAnyPair; regUserById] [regUserById; regPostMe; regAnyPair]
           regUserMe); reflexivity.
Defined.

(** What [addWithMiddleware] takes as static is a path without any colon.
    A path with a colon inside a segment has no capture, yet it is kept
    with the parameterized routes: it matches as a literal, with an empty
    parameter map, and in its turn. *)
Remark colon_inside_segment_is_scanned :
  let early := {| reg_method := "GET"; reg_path := "/time/:t";
                  reg_handler := respond 200 "any time"; reg_middlewares := slices.nil |} in
  let noon := {| reg_method := "GET"; reg_path := "/time/12:30";
                 reg_handler := respond 200 "half past noon";
                 reg_middlewares := slices.nil |} in
  hasParams "/time/12:30" = true
  ∧ find (registerAll [noon]) "GET" "/time/12:30" = (Some (routeOf noon), Some ∅)
  ∧ find (registerAll [early; noon]) "GET" "/time/12:30"
    = (Some (routeOf early), Some {[ "t" := "12:30" ]}).
Proof. repeat split. Qed.

(** ** The route table: parameterized routes *)

Section param_routes.
Implicit Types (r : Router) (reg : registration) (method path : string).
Implicit Types (parts req : list string) (params : gmap string string).

(** The inner loop reads [requestParts[i]] within bounds and computes
    the match and the bindings of the specification. *)
Lemma matchParts_spec parts : ∀ i req params,
  i + length parts ≤ length req →
  matchParts parts i req params =
  if forallb (λ pr, segmentAccepts pr.1 pr.2) (zip parts (drop i req))
  then Some (foldl bind params (zip parts (drop i req)))
  else None.
Proof.
  induction parts as [| part parts IH]; intros i req params Hlen; [done |].
  simpl in Hlen.
  destruct (drop i req) as [| x rest] eqn:Hdrop.
  { apply (f_equal length) in Hdrop. rewrite length_drop in Hdrop. simpl in Hdrop. lia. }
  assert (req !!! i = x) as Hx.
  { apply list_lookup_total_correct.
    rewrite <- (Nat.add_0_r i), <- lookup_drop, Hdrop. done. }
  assert (drop (S i) req = rest) as Hrest.
  { replace (S i) with (i + 1) by lia. by rewrite <- drop_drop, Hdrop. }
  cbn [matchParts zip zip_with forallb foldl]. unfold segmentAccepts at 1, bind at 2.
  cbn [fst snd]. unfold isCapture, captureName. rewrite Hx.
  destruct (strings.HasPrefix part ":") eqn:Hcap; cbn [orb andb].
  - rewrite IH by lia. by rewrite Hrest.
  - destruct (String.eqb part x) eqn:Heq; cbn [negb andb]; [| done].
    rewrite IH by lia. by rewrite Hrest.
Qed.

Lemma matchParts_candidate parts req :
  length parts = length req →
  matchParts parts 0 req ∅ =
  if candidateMatches parts req then Some (bindings parts req) else None.
Proof.
  intros Hlen. rewrite matchParts_spec by (simpl; lia).
  unfold candidateMatches, bindings. rewrite drop_0.
  by rewrite (proj2 (Nat.eqb_eq _ _) Hlen).
Qed.

(** The outer loop returns the earliest matching candidate. *)
Lemma scan_firstMatch (cands : list registration) req :
  scan (map toParamRoute cands) req =
  match firstMatch req cands with
  | Some reg => (Some (routeOf reg), Some (bindings (segmentsOf (reg_path reg)) req))
  | None => (None, None)
  end.
Proof.
  induction cands as [| reg cands IH]; [done |].
  cbn [map scan firstMatch List.find]. cbn [toParamRoute pathParts route_].
  destruct (length (segmentsOf (reg_path reg)) =? length req) eqn:Hlen; cbn [negb].
  - apply Nat.eqb_eq in Hlen. rewrite matchParts_candidate by done.
    destruct (candidateMatches _ req); [done | apply IH].
  - unfold candidateMatches at 1. rewrite Hlen. cbn [andb]. apply IH.
Qed.

(** Registration appends to the method's list, and only there. *)
Lemma paramRoutes_register r reg method :
  default [] (paramRoutes (register r reg) !! method) =
  default [] (paramRoutes r !! method)
  ++ (if isParamRegistration method reg then [toParamRoute reg] else []).
Proof.
  unfold register, addWithMiddleware, isParamRegistration.
  destruct (hasParams (reg_path reg)); cbn [negb paramRoutes].
  - destruct (String.eqb_spec (reg_method reg) method) as [<- | Hne]; cbn [andb].
    + by rewrite lookup_insert_eq.
    + rewrite lookup_insert_ne by done. by rewrite app_nil_r.
  - rewrite andb_false_r. by rewrite app_nil_r.
Qed.

Lemma paramRoutes_registerAll (regs : list registration) method :
  default [] (paramRoutes (registerAll regs) !! method)
  = map toParamRoute (candidatesOf method regs).
Proof.
  induction regs as [| reg regs IH] using rev_ind; [done |].
  unfold registerAll, candidatesOf in *. rewrite foldl_app. cbn [foldl].
  rewrite paramRoutes_register, IH, List.filter_app, map_app. cbn [List.filter].
  by destruct (isParamRegistration method reg).
Qed.

(** What "earliest" means on the history itself. *)
Lemma firstMatch_earliest req method (regs : list registration) reg :
  firstMatch req (candidatesOf method regs) = Some reg →
  ∃ before after,
    regs = before ++ reg :: after
    ∧ isParamRegistration method reg = true
    ∧ candidateMatches (segmentsOf (reg_path reg)) req = true
    ∧ Forall (λ reg', isParamRegistration method reg' = true →
                      candidateMatches (segmentsOf (reg_path reg')) req = false) before.
Proof.
  induction regs as [| reg0 regs IH]; [done |].
  unfold firstMatch, candidatesOf in *. cbn [List.filter].
  destruct (isParamRegistration method reg0) eqn:Hp.
  - cbn [List.find].
    destruct (candidateMatches (segmentsOf (reg_path reg0)) req) eqn:Hm.
    + intros [= <-]. by exists [], regs.
    + intros Hf. destruct (IH Hf) as (before & after & -> & Hp' & Hm' & Hall).
      exists (reg0 :: before), after. repeat split; try done.
      constructor; [done | exact Hall].
  - intros Hf. destruct (IH Hf) as (before & after & -> & Hp' & Hm' & Hall).
    exists (reg0 :: before), after. repeat split; try done.
    constructor; [| exact Hall]. congruence.
Qed.

Lemma firstMatch_none req method (regs : list registration) :
  firstMatch req (candidatesOf method regs) = None →
  Forall (λ reg', isParamRegistration method reg' = true →
                  candidateMatches (segmentsOf (reg_path reg')) req = false) regs.
Proof.
  induction regs as [| reg0 regs IH]; [by constructor |].
  unfold firstMatch, candidatesOf in *. cbn [List.filter].
  destruct (isParamRegistration method reg0) eqn:Hp.
  - cbn [List.find].
    destruct (candidateMatches (segmentsOf (reg_path reg0)) req) eqn:Hm; [done |].
    intros Hf. constructor; [done | by apply IH].
  - intros Hf. constructor; [congruence | by apply IH].
Qed.

End param_routes.

(** C2. When no static route answers, [find] returns the earliest
    registered parameterized route of the method that has the request's
    number of segments and whose literal segments all equal the request's,
    with every capture name bound to its request segment; and nothing when
    there is none.  Earliest is meant in the history of registrations: the
    route found is preceded by no candidate that matches. *)
Theorem find_scans_param_routes_in_order
    (regs : list registration) (method path : string) :
  staticLookup (registerAll regs) method path = None →
  find (registerAll regs) method path =
    match firstMatch (segmentsOf path) (candidatesOf method regs) with
    | Some reg =>
        (Some (routeOf reg), Some (bindings (segmentsOf (reg_path reg)) (segmentsOf path)))
    | None => (None, None)
    end
  ∧ match firstMatch (segmentsOf path) (candidatesOf method regs) with
    | Some reg =>
        ∃ before after,
          regs = before ++ reg :: after
          ∧ isParamRegistration method reg = true
          ∧ candidateMatches (segmentsOf (reg_path reg)) (segmentsOf path) = true
          ∧ Forall (λ reg', isParamRegistration method reg' = true →
                     candidateMatches (segmentsOf (reg_path reg')) (segmentsOf path) = false)
                   before
    | None =>
        Forall (λ reg', isParamRegistration method reg' = true →
                  candidateMatches (segmentsOf (reg_path reg')) (segmentsOf path) = false)
               regs
    end.
Proof.
  intros Hstatic. split.
  - rewrite find_no_static by done.
    rewrite paramRoutes_registerAll. apply scan_firstMatch.
  - destruct (firstMatch _ _) as [reg |] eqn:Hf.
    + by apply firstMatch_earliest.
    + by apply firstMatch_none.
Qed.

(** The scenario of the route test: two captures around a literal. *)
Example two_captures_bind_in_order :
  let reg := {| reg_method := "GET"; reg_path := "/param/:param1/p/:param2";
                reg_handler := respond 200 "params"; reg_middlewares := slices.nil |} in
  find (registerAll [reg]) "GET" "/param/abcd/p/efgh"
  = (Some (routeOf reg), Some {[ "param1" := "abcd"; "param2" := "efgh" ]})
  ∧ find (registerAll [reg]) "GET" "/param/abcd/P/efgh" = (None, None)
  ∧ find (registerAll [reg]) "GET" "/param/abcd/p" = (None, None).
Proof.
  intros reg. repeat split.
Qed.

Lemma find_scans_param_routes_in_order_witness :
  find (registerAll [regUserMe; regPostMe; regUserById; regAnyPair]) "GET" "/users/42"
  = (Some (routeOf regUserById), Some {[ "id" := "42" ]}).
Proof.
  apply (find_scans_param_routes_in_order
           [regUserMe; regPostMe; regUserById; regAnyPair] "GET" "/users/42").
  reflexivity.
Defined.

(** ** Router groups *)

(** C4. [g.Group(q, ms...)] returns a group whose prefix is [g]'s prefix
    followed by [q], byte for byte, and whose middleware are [g]'s followed
    by [ms]; [g] still shows its own middleware; and
    [Group("/api").Group("/admin")] has prefix ["/api/admin"]. *)
Theorem group_concatenates_prefix_and_middleware
    (slack : nat → nat → nat) (g : RouterGroup) (mem : gmap slices.loc (list Middleware))
    (q : string) (ms : slices.slice) :
  slices.wf mem (rg_middlewares g) →
  let g' := (RouterGroup_Group slack g mem q ms).1 in
  let mem' := (RouterGroup_Group slack g mem q ms).2 in
  prefix g' = prefix g +:+ q
  ∧ slices.view mem' (rg_middlewares g')
    = slices.view mem (rg_middlewares g) ++ slices.view mem ms
  ∧ slices.view mem' (rg_middlewares g) = slices.view mem (rg_middlewares g)
  ∧ prefix (RouterGroup_Group slack (Engine_Group "/api" slices.nil) mem "/admin" slices.nil).1
    = "/api/admin".
Proof.
  intros Hwf g' mem'. subst g' mem'. unfold RouterGroup_Group.
  pose proof (append_view slack mem (rg_middlewares g) (slices.view mem ms) Hwf) as Hv.
  pose proof (append_keeps slack mem (rg_middlewares g) (slices.view mem ms) Hwf) as Hk.
  destruct (slices.append slack mem (rg_middlewares g) (slices.view mem ms)) as [s mem'].
  split; [reflexivity |]. split; [exact Hv |]. split; [exact Hk |].
  unfold Engine_Group. cbn [rg_middlewares prefix].
  by destruct (slices.append slack mem slices.nil (slices.view mem slices.nil)).
Qed.

Lemma apiGroup_wf : slices.wf sampleMem (rg_middlewares apiGroup).
Proof. split; [vm_compute; lia | right; vm_compute; lia]. Qed.

Lemma group_concatenates_prefix_and_middleware_witness :
  let nested := RouterGroup_Group doubling apiGroup sampleMem "//admin" auditArg in
  prefix nested.1 = "/api//admin"
  ∧ slices.view nested.2 (rg_middlewares nested.1)
    = [stage "auth" None; stage "log" None; stage "audit" None]
  ∧ slices.view nested.2 (rg_middlewares apiGroup) = [stage "auth" None; stage "log" None].
Proof.
  destruct (group_concatenates_prefix_and_middleware
              doubling apiGroup sampleMem "//admin" auditArg apiGroup_wf) as (Hp & Hv & Hk & _).
  intros nested. split; [exact Hp | split; [exact Hv | exact Hk]].
Defined.

(** Why the statements about groups and routes speak of the moment a call
    returns: a group with spare capacity lends its next cell to every
    group and route made from it, and the latest one owns it. *)
Remark groups_of_one_parent_share_cells :
  let first := RouterGroup_Group doubling apiGroup sampleMem "/v1" auditArg in
  let second := RouterGroup_Group doubling apiGroup first.2 "/v2" traceArg in
  slices.view first.2 (rg_middlewares first.1)
  = [stage "auth" None; stage "log" None; stage "audit" None]
  ∧ slices.view second.2 (rg_middlewares second.1)
    = [stage "auth" None; stage "log" None; stage "trace" None]
  ∧ slices.view second.2 (rg_middlewares first.1)
    = [stage "auth" None; stage "log" None; stage "trace" None].
Proof. repeat split. Qed.

(** ** Registration *)

Section registration_facts.
Variable slack : nat → nat → nat.
Implicit Types (e : Engine) (mem : gmap slices.loc (list Middleware)).
Implicit Types (h : HandlerFunc) (hs : list HandlerFunc) (g : slices.slice).

Lemma routeMiddlewares_map hs (acc : list Middleware) :
  foldl (λ acc h, acc ++ [wrapHandlerAsMiddleware h]) acc hs
  = acc ++ map wrapHandlerAsMiddleware hs.
Proof.
  revert acc. induction hs as [| h hs IH]; intros acc; simpl.
  - by rewrite app_nil_r.
  - by rewrite IH, <- app_assoc.
Qed.

(** What [addRoute] does with a list of handlers that has a last one. *)
Lemma addRoute_snoc e mem method path g hs h :
  addRoute slack e mem method path g (hs ++ [h]) =
  Returns
    (setRouter e
       (addWithMiddleware (router e) method path h
          (slices.append slack mem g (map wrapHandlerAsMiddleware hs)).1),
     (slices.append slack mem g (map wrapHandlerAsMiddleware hs)).2).
Proof.
  unfold addRoute. rewrite length_app. simpl length.
  replace (length hs + 1 =? 0) with false by (symmetry; apply Nat.eqb_neq; lia).
  replace (length hs + 1 - 1) with (length hs) by lia.
  rewrite lookup_app_r by lia. rewrite Nat.sub_diag. simpl lookup.
  rewrite take_app_length. rewrite routeMiddlewares_map. simpl app.
  by destruct (slices.append slack mem g (map wrapHandlerAsMiddleware hs)).
Qed.

Lemma addRoute_empty e mem method path g :
  addRoute slack e mem method path g []
  = Panics "route must have at least one handler" (e, mem).
Proof. reflexivity. Qed.

Lemma addRoute_nonempty e mem method path g h hs :
  ∃ st, addRoute slack e mem method path g (h :: hs) = Returns st.
Proof.
  destruct (exists_last (l := h :: hs)) as (hs' & h' & ->); [done |].
  rewrite addRoute_snoc. eauto.
Qed.

End registration_facts.

(** C10. Registration without a handler panics with the message
    "route must have at least one handler", through [addRoute] and through
    each of the registrars of a group and of the engine, and the engine,
    its route table included, is as it was; registration with at least one
    handler returns. *)
Theorem registration_panics_only_without_handler
    (slack : nat → nat → nat) (e : Engine) (mem : gmap slices.loc (list Middleware))
    (rg : RouterGroup) (method path : string) (mws : slices.slice) :
  let panic := Panics "route must have at least one handler" (e, mem) in
  (addRoute slack e mem method path mws [] = panic
   ∧ RouterGroup_GET slack rg e mem path [] = panic
   ∧ RouterGroup_POST slack rg e mem path [] = panic
   ∧ RouterGroup_PUT slack rg e mem path [] = panic
   ∧ RouterGroup_DELETE slack rg e mem path [] = panic
   ∧ GET slack e mem path [] = panic
   ∧ POST slack e mem path [] = panic
   ∧ PUT slack e mem path [] = panic
   ∧ DELETE slack e mem path [] = panic)
  ∧ ∀ (h : HandlerFunc) (hs : list HandlerFunc),
      (∃ st, addRoute slack e mem method path mws (h :: hs) = Returns st)
      ∧ (∃ st, RouterGroup_GET slack rg e mem path (h :: hs) = Returns st)
      ∧ (∃ st, RouterGroup_POST slack rg e mem path (h :: hs) = Returns st)
      ∧ (∃ st, RouterGroup_PUT slack rg e mem path (h :: hs) = Returns st)
      ∧ (∃ st, RouterGroup_DELETE slack rg e mem path (h :: hs) = Returns st)
      ∧ (∃ st, GET slack e mem path (h :: hs) = Returns st)
      ∧ (∃ st, POST slack e mem path (h :: hs) = Returns st)
      ∧ (∃ st, PUT slack e mem path (h :: hs) = Returns st)
      ∧ (∃ st, DELETE slack e mem path (h :: hs) = Returns st).
Proof.
  intros panic. split.
  - repeat split.
  - intros h hs.
    unfold GET, POST, PUT, DELETE,
      RouterGroup_GET, RouterGroup_POST, RouterGroup_PUT, RouterGroup_DELETE.
    repeat split; apply addRoute_nonempty.
Qed.

(** C5. Registered with handlers [hs] followed by [h], a route has [h] as
    its handler and, after the middleware it was given, one middleware per
    handler of [hs], in order.  Each of these runs its handler first; when
    the handler returns an error, that error is the result and [next] is
    not called; otherwise [next] runs on what the handler left, and its
    result, error or not, is the result. *)
Theorem earlier_handlers_become_route_middleware
    (slack : nat → nat → nat) (e : Engine) (mem : gmap slices.loc (list Middleware))
    (method path : string) (g : slices.slice) (hs : list HandlerFunc) (h : HandlerFunc) :
  slices.wf mem g →
  (∃ (s' : slices.slice) (mem' : gmap slices.loc (list Middleware)),
     addRoute slack e mem method path g (hs ++ [h])
     = Returns (setRouter e (addWithMiddleware (router e) method path h s'), mem')
     ∧ slices.view mem' s' = slices.view mem g ++ map wrapHandlerAsMiddleware hs)
  ∧ ∀ (h0 next : HandlerFunc) (w : World),
      wrapHandlerAsMiddleware h0 next w =
      match h0 w with
      | (w1, Some err) => (w1, Some err)
      | (w1, None) => next w1
      end.
Proof.
  intros Hwf. split.
  - eexists _, _. split; [apply addRoute_snoc |]. by apply append_view.
  - intros h0 next w. unfold wrapHandlerAsMiddleware.
    destruct (h0 w) as [w1 [err |]]; [done |].
    by destruct (next w1) as [w2 [err |]].
Qed.

Lemma earlier_handlers_become_route_middleware_witness :
  ∃ (s' : slices.slice) (mem' : gmap slices.loc (list Middleware)),
    addRoute doubling New sampleMem "GET" "/api/x" (rg_middlewares apiGroup)
      [step "check" None; respond 200 "ok"]
    = Returns (setRouter New (addWithMiddleware (router New) "GET" "/api/x"
                                (respond 200 "ok") s'), mem')
    ∧ slices.view mem' s'
      = [stage "auth" None; stage "log" None; wrapHandlerAsMiddleware (step "check" None)].
Proof.
  destruct (earlier_handlers_become_route_middleware doubling New sampleMem "GET" "/api/x"
              (rg_middlewares apiGroup) [step "check" None] (respond 200 "ok") apiGroup_wf)
    as [(s' & mem' & Hadd & Hview) _].
  exists s', mem'. split; [exact Hadd | exact Hview].
Defined.

(** ** The middleware chain *)

Section chain_facts.
Implicit Types (mws : list Middleware) (h inner : HandlerFunc) (w : World).
Implicit Types (names : list string).

Lemma chain_app mws1 mws2 h : chain (mws1 ++ mws2) h = chain mws1 (chain mws2 h).
Proof. unfold chain. apply foldr_app. Qed.

(** The descending loop builds the nesting from the inside out. *)
Lemma applyDown_take mws : ∀ n h,
  n ≤ length mws → applyDown mws n h = chain (take n mws) h.
Proof.
  induction n as [| i IH]; intros h Hn; [done |].
  cbn [applyDown]. destruct (_ !! i) as [mw |] eqn:Hmw.
  - rewrite IH by lia. rewrite (take_S_r (A := Middleware) mws i mw Hmw), chain_app. done.
  - apply lookup_ge_None in Hmw. unfold Middleware in *. lia.
Qed.

Lemma applyDown_chain mws h : applyDown mws (length mws) h = chain mws h.
Proof. rewrite applyDown_take by done. by rewrite firstn_all. Qed.

Lemma buildChain_chain e (mem : gmap slices.loc (list Middleware)) h :
  buildChain e mem h = chain (slices.view mem (e_middlewares e)) h.
Proof. unfold buildChain. apply applyDown_chain. Qed.

Lemma assemble_chain e (mem : gmap slices.loc (list Middleware)) (rt : route) :
  assemble e mem rt
  = chain (slices.view mem (e_middlewares e) ++ slices.view mem (middlewares rt)) (handler rt).
Proof.
  unfold assemble. by rewrite buildChain_chain, applyDown_chain, chain_app.
Qed.

Lemma noteAll_noteAll (xs ys : list string) w :
  noteAll ys (noteAll xs w) = noteAll (xs ++ ys) w.
Proof. unfold noteAll. simpl. by rewrite app_assoc. Qed.

Lemma noteAll_nil w : noteAll [] w = w.
Proof. destruct w. unfold noteAll. simpl. by rewrite app_nil_r. Qed.

(** Stages that let the request through are entered in order and left in
    reverse order around whatever runs inside them. *)
Lemma passing_stages names inner w :
  chain (map (λ name, stage name None) names) inner w =
  let '(w', r) := inner (noteAll (map entering names) w) in
  (noteAll (map leaving (rev names)) w', r).
Proof.
  revert w. induction names as [| name names IH]; intros w.
  - simpl. rewrite noteAll_nil. destruct (inner w) as [w' r]. by rewrite noteAll_nil.
  - cbn [map chain foldr]. unfold stage at 1. fold (chain (map (λ name, stage name None) names) inner).
    rewrite IH. change (note (entering name) w) with (noteAll [entering name] w).
    rewrite noteAll_noteAll. cbn [app].
    destruct (inner _) as [w' r].
    change (note (leaving name) ?x) with (noteAll [leaving name] x).
    rewrite noteAll_noteAll. cbn [rev]. by rewrite map_app.
Qed.

(** A stage that returns an error never calls what it wraps. *)
Lemma failing_stage name err inner w :
  stage name (Some err) inner w = (noteAll [entering name; leaving name] w, Some err).
Proof. unfold stage, note, noteAll. simpl. by rewrite <- app_assoc. Qed.

(** Adapted handlers that return no error run in order, then what they
    wrap runs. *)
Lemma passing_steps names inner w :
  chain (map (λ name, wrapHandlerAsMiddleware (step name None)) names) inner w
  = inner (noteAll (map running names) w).
Proof.
  revert w. induction names as [| name names IH]; intros w.
  - simpl. by rewrite noteAll_nil.
  - cbn [map chain foldr]. unfold wrapHandlerAsMiddleware at 1, step at 1.
    fold (chain (map (λ name, wrapHandlerAsMiddleware (step name None)) names) inner).
    rewrite IH. change (note (running name) w) with (noteAll [running name] w).
    rewrite noteAll_noteAll. cbn [app].
    by destruct (inner _) as [w' [err |]].
Qed.

Lemma failing_step name err inner w :
  wrapHandlerAsMiddleware (step name (Some err)) inner w
  = (noteAll [running name] w, Some err).
Proof. reflexivity. Qed.

End chain_facts.


(** The order on a request through all the levels, and on one whose
    adapted handler fails: the handler does not run, the wrappers are left
    in reverse order, the error handler is called. *)
Example layered_dispatch_order :
  journal (handle (layeredApp None).1 (layeredApp None).2
             (transport httptest.NewRecorder) (request "GET" "/api/team/x") [])
  = ["enter global"; "enter auth"; "enter team"; "run check"; "run handler";
     "leave team"; "leave auth"; "leave global"]
  ∧ journal (handle (layeredApp (Some (errors_New "denied"))).1
               (layeredApp (Some (errors_New "denied"))).2
               (transport httptest.NewRecorder) (request "GET" "/api/team/x") [])
    = ["enter global"; "enter auth"; "enter team"; "run check";
       "leave team"; "leave auth"; "leave global"; "error handler: denied"].
Proof. split; vm_compute; reflexivity. Qed.


(** ** Strings and encodings *)

Lemma append_assoc (a b c : string) : (a +:+ b) +:+ c = a +:+ (b +:+ c).
Proof.
  induction a as [| x a IH]; [done |].
  change (String x ((a +:+ b) +:+ c) = String x (a +:+ (b +:+ c))). by rewrite IH.
Qed.

Lemma append_length (a b : string) :
  String.length (a +:+ b) = String.length a + String.length b.
Proof.
  induction a as [| x a IH]; [done |].
  change (S (String.length (a +:+ b)) = S (String.length a) + String.length b).
  by rewrite IH.
Qed.

(** The document the default error handler sends. *)
Lemma Encode_serverError (msg : string) :
  json.Encode (serverError_json {| Error_ := msg |})
  = "{" +:+ quoted "error" +:+ ":" +:+ json.quote msg +:+ "}" +:+ newline.
Proof.
  unfold json.Encode, serverError_json, json.Marshal. cbn [Error_].
  change (json.quote "error") with (quoted "error").
  by rewrite !append_assoc.
Qed.

(** Every encoded document has at least its newline. *)
Lemma Encode_nonempty (v : json.value) : 0 < String.length (json.Encode v).
Proof.
  unfold json.Encode. rewrite append_length.
  change (String.length (String (ascii_of_nat 10) EmptyString)) with 1. lia.
Qed.

(** ** Writers *)

Section writer_facts.
Implicit Types (w : ResponseWriter) (rw : responseWriter) (c : Context).

Lemma underlying_iHeaderSet w key value :
  underlying (iHeaderSet w key value) = httptest.SetHeader (underlying w) key value.
Proof. induction w; simpl; auto. Qed.

Lemma underlying_iWriteHeader w code :
  underlying (iWriteHeader w code) = httptest.WriteHeader (underlying w) code.
Proof. induction w; simpl; auto. Qed.

Lemma iWrite_result w b : (iWrite w b).2 = (Z.of_nat (String.length b), None).
Proof.
  induction w as [rec | inner IH st sz]; simpl; [done |].
  destruct (iWrite inner b) as [inner' [n err]]. simpl in *. done.
Qed.

Lemma underlying_iWrite w b :
  underlying (iWrite w b).1 = (httptest.Write (underlying w) b).1.
Proof.
  induction w as [rec | inner IH st sz]; simpl; [done |].
  destruct (iWrite inner b) as [inner' [n err]]. simpl in *. done.
Qed.

(** What [c.JSON] leaves: the wrapper has the code and its old size; the
    transport has seen the header, the code and the encoding. *)
Lemma JSON_effect c code v :
  status (Writer (JSON c code v).1) = code
  ∧ size (Writer (JSON c code v).1) = size (Writer c)
  ∧ underlying (embedded (Writer (JSON c code v).1))
    = (httptest.Write
         (httptest.WriteHeader
            (httptest.SetHeader (underlying (embedded (Writer c)))
               "Content-Type" "application/json") code)
         (json.Encode v)).1
  ∧ (JSON c code v).2 = None.
Proof.
  unfold JSON, WriteHeader. cbn [embedded status size].
  set (inner := iWriteHeader (iHeaderSet (embedded (Writer c)) _ _) code).
  pose proof (iWrite_result inner (json.Encode v)) as Hres.
  pose proof (underlying_iWrite inner (json.Encode v)) as Hund.
  destruct (iWrite inner (json.Encode v)) as [inner' [n err]].
  simpl in Hres, Hund. injection Hres as -> ->.
  cbn [fst snd setWriter Writer status size embedded].
  repeat split. rewrite Hund. subst inner.
  by rewrite underlying_iWriteHeader, underlying_iHeaderSet.
Qed.

(** What [c.Text] leaves: the wrapper has the code and has counted the
    bytes. *)
Lemma Text_effect c code text :
  status (Writer (Text c code text).1) = code
  ∧ size (Writer (Text c code text).1)
    = intAdd (size (Writer c)) (Z.of_nat (String.length text))
  ∧ underlying (embedded (Writer (Text c code text).1))
    = (httptest.Write (httptest.WriteHeader (underlying (embedded (Writer c))) code) text).1.
Proof.
  unfold Text, Write, WriteHeader. cbn [embedded status size].
  set (inner := iWriteHeader (embedded (Writer c)) code).
  pose proof (iWrite_result inner text) as Hres.
  pose proof (underlying_iWrite inner text) as Hund.
  destruct (iWrite inner text) as [inner' [n err]].
  simpl in Hres, Hund. injection Hres as -> ->.
  cbn [fst snd setWriter Writer status size embedded].
  repeat split. rewrite Hund. subst inner.
  by rewrite underlying_iWriteHeader.
Qed.

End writer_facts.

(** ** The dispatcher and the error handler *)

Lemma assemble_SetErrorHandler (e : Engine) (eh : ErrorHandler)
    (mem : gmap slices.loc (list Middleware)) (rt : route) :
  assemble (SetErrorHandler e eh) mem rt = assemble e mem rt.
Proof. reflexivity. Qed.

(** C6. When the chain assembled for a request returns an error, the
    dispatcher's result is one call of the configured error handler on
    what the chain left, with that error: a handler that only notes its
    calls notes exactly this one.  The default handler sets the wrapper's
    status to 400 and hands the transport the JSON content type, the
    status 400 and the document with the one member [error] holding the
    message, as the encoder writes it (newline-terminated); on a response
    not yet started the recorded status is 400.  For the handler that
    returns "user not found" the response is status 400 and its body is
    the JSON document [{"error":"user not found"}]. *)
Theorem error_is_delivered_once_to_error_handler
    (e : Engine) (mem : gmap slices.loc (list Middleware)) (w : ResponseWriter)
    (r : http.Request) (app : list string) (rt : route)
    (params : option (gmap string string)) (c' : World) (err : error) :
  find (router e) (http.Method r) (http.URL_Path r) = (Some rt, params) →
  assemble e mem rt (startWorld w r params app) = (c', Some err) →
  handle e mem w r app = errorHandler e c' err
  ∧ journal (handle (SetErrorHandler e recordingErrorHandler) mem w r app)
    = journal c' ++ ["error handler: " +:+ Error err]
  ∧ status (Writer (ctx (defaultErrorHandler c' err))) = 400%Z
  ∧ journal (defaultErrorHandler c' err) = journal c'
  ∧ httptest.Body (recorderOf (defaultErrorHandler c' err))
    = httptest.Body (recorderOf c')
      +:+ "{" +:+ quoted "error" +:+ ":" +:+ json.quote (Error err) +:+ "}" +:+ newline
  ∧ (httptest.wroteHeader (recorderOf c') = false →
     httptest.Code (recorderOf (defaultErrorHandler c' err)) = 400%Z
     ∧ httptest.HeaderMap (recorderOf (defaultErrorHandler c' err)) !! "Content-Type"
       = Some ["application/json"])
  ∧ (let response := recorderOf (handle userApp.1 userApp.2 (transport httptest.NewRecorder)
                                   (request "GET" "/users/7") []) in
     httptest.Code response = 400%Z
     ∧ httptest.Body response
       = "{" +:+ quoted "error" +:+ ":" +:+ quoted "user not found" +:+ "}" +:+ newline
     ∧ json.parse (httptest.Body response)
       = Some (json.Object [("error", json.Str "user not found")])).
Proof.
  intros Hfind Hrun.
  assert (∀ eh, handle (SetErrorHandler e eh) mem w r app = eh c' err) as Hhandle.
  { intros eh. unfold handle. cbn [router SetErrorHandler]. rewrite Hfind.
    rewrite assemble_SetErrorHandler.
    change {| ctx := setParams (NewContext (newResponseWriter w) r) params; journal := app |}
      with (startWorld w r params app).
    rewrite Hrun. done. }
  split.
  { rewrite <- (Hhandle (errorHandler e)). by destruct e. }
  split; [by rewrite Hhandle |].
  unfold defaultErrorHandler, recorderOf.
  pose proof (JSON_effect (ctx c') http.StatusBadRequest
                (serverError_json {| Error_ := Error err |})) as (Hst & _ & Hund & _).
  destruct (JSON (ctx c') http.StatusBadRequest _) as [ctx' res].
  cbn [fst snd ctx journal] in *.
  split; [exact Hst |]. split; [done |].
  rewrite Hund. clear Hund Hst.
  destruct (underlying (embedded (Writer (ctx c')))) as [code hm body wrote].
  split; [| split].
  - rewrite <- Encode_serverError. by destruct wrote.
  - cbn [httptest.wroteHeader]. intros ->. split; [done |]. apply lookup_insert_eq.
  - vm_compute. done.
Qed.

Lemma error_is_delivered_once_to_error_handler_witness :
  handle userApp.1 userApp.2 (transport httptest.NewRecorder) (request "GET" "/users/7") []
  = defaultErrorHandler
      (startWorld (transport httptest.NewRecorder) (request "GET" "/users/7")
         (Some {[ "id" := "7" ]}) [])
      (errors_New "user not found").
Proof.
  apply (error_is_delivered_once_to_error_handler userApp.1 userApp.2
           (transport httptest.NewRecorder) (request "GET" "/users/7") []
           {| handler := failWith "user not found"; middlewares := slices.nil |}
           (Some {[ "id" := "7" ]})); reflexivity.
Defined.

(** C8. The wrapper records the status code of both response helpers,
    and the bytes of [Text]; the bytes of [JSON] go to the embedded writer
    and leave the wrapper's size as it was.  For the route of the
    full-flow test the transport has received fifteen bytes and the
    wrapper has counted none. *)
Theorem json_response_is_not_counted :
  (∀ (c : Context) (code : Z) (v : json.value),
     status (Writer (JSON c code v).1) = code
     ∧ size (Writer (JSON c code v).1) = size (Writer c)
     ∧ httptest.Body (underlying (embedded (Writer (JSON c code v).1)))
       = httptest.Body (underlying (embedded (Writer c))) +:+ json.Encode v
     ∧ 0 < String.length (json.Encode v))
  ∧ (∀ (c : Context) (code : Z) (text : string),
       status (Writer (Text c code text).1) = code
       ∧ size (Writer (Text c code text).1)
         = intAdd (size (Writer c)) (Z.of_nat (String.length text))
       ∧ httptest.Body (underlying (embedded (Writer (Text c code text).1)))
         = httptest.Body (underlying (embedded (Writer c))) +:+ text)
  ∧ (let done := handle pingApp.1 pingApp.2 (transport httptest.NewRecorder)
                   (request "GET" "/ping") [] in
     status (Writer (ctx done)) = 200%Z
     ∧ size (Writer (ctx done)) = 0%Z
     ∧ String.length (httptest.Body (recorderOf done)) = 15)
  ∧ (let done := handle helloApp.1 helloApp.2 (transport httptest.NewRecorder)
                   (request "GET" "/hello") [] in
     status (Writer (ctx done)) = 200%Z
     ∧ size (Writer (ctx done)) = 5%Z
     ∧ String.length (httptest.Body (recorderOf done)) = 5).
Proof.
  split; [| split; [| split]].
  - intros c code v. destruct (JSON_effect c code v) as (Hst & Hsz & Hund & _).
    split; [exact Hst |]. split; [exact Hsz |]. split; [| apply Encode_nonempty].
    rewrite Hund. destruct (underlying (embedded (Writer c))) as [code0 hm body wrote].
    by destruct wrote.
  - intros c code text. destruct (Text_effect c code text) as (Hst & Hsz & Hund).
    split; [exact Hst |]. split; [exact Hsz |].
    rewrite Hund. destruct (underlying (embedded (Writer c))) as [code0 hm body wrote].
    by destruct wrote.
  - vm_compute. done.
  - vm_compute. done.
Qed.

(** ** Query helpers *)

(** C9. For a key that the query does not have, [QueryInt] returns 0 and
    [QueryBool] returns false, both without an error, which is also what
    they return for the values ["0"] and ["false"]; and either helper
    returns an error only for a key that has a first value, not empty, that
    [strconv] does not parse. *)
Theorem strict_query_helpers_on_missing_key (c : Context) (key : string) :
  http.URL_Query (Request c) !! key = None →
  QueryInt c key = (0%Z, None)
  ∧ QueryBool c key = (false, None)
  ∧ (∀ c0 : Context, Query c0 key = "0" → QueryInt c0 key = QueryInt c key)
  ∧ (∀ c0 : Context, Query c0 key = "false" → QueryBool c0 key = QueryBool c key)
  ∧ (∀ (c0 : Context) (n : Z) (err : error),
       QueryInt c0 key = (n, Some err) →
       ∃ val rest, http.URL_Query (Request c0) !! key = Some (val :: rest)
                   ∧ val ≠ EmptyString ∧ strconv.Atoi val = (n, Some err))
  ∧ (∀ (c0 : Context) (b : bool) (err : error),
       QueryBool c0 key = (b, Some err) →
       ∃ val rest, http.URL_Query (Request c0) !! key = Some (val :: rest)
                   ∧ val ≠ EmptyString ∧ strconv.ParseBool val = (b, Some err)).
Proof.
  intros Habsent.
  assert (QueryInt c key = (0%Z, None)) as Hint.
  { unfold QueryInt, Query, http.Get. by rewrite Habsent. }
  assert (QueryBool c key = (false, None)) as Hbool.
  { unfold QueryBool, Query, http.Get. by rewrite Habsent. }
  split; [exact Hint |]. split; [exact Hbool |]. split; [| split; [| split]].
  - intros c0 H0. rewrite Hint. unfold QueryInt. by rewrite H0.
  - intros c0 H0. rewrite Hbool. unfold QueryBool. by rewrite H0.
  - intros c0 n err. unfold QueryInt, Query, http.Get.
    destruct (http.URL_Query (Request c0) !! key) as [[| val rest] |]; try done.
    destruct (String.eqb_spec val EmptyString) as [-> | Hne]; [done |].
    intros Hat. by exists val, rest.
  - intros c0 b err. unfold QueryBool, Query, http.Get.
    destruct (http.URL_Query (Request c0) !! key) as [[| val rest] |]; try done.
    destruct (String.eqb_spec val EmptyString) as [-> | Hne]; [done |].
    intros Hat. by exists val, rest.
Qed.

Lemma strict_query_helpers_on_missing_key_witness :
  QueryInt (NewContext (newResponseWriter (transport httptest.NewRecorder))
              (request "GET" "/test")) "page" = (0%Z, None)
  ∧ QueryBool (NewContext (newResponseWriter (transport httptest.NewRecorder))
                 (request "GET" "/test")) "debug" = (false, None).
Proof.
  split.
  - exact (proj1 (strict_query_helpers_on_missing_key
                    (NewContext (newResponseWriter (transport httptest.NewRecorder))
                       (request "GET" "/test")) "page" eq_refl)).
  - exact (proj1 (proj2 (strict_query_helpers_on_missing_key
                           (NewContext (newResponseWriter (transport httptest.NewRecorder))
                              (request "GET" "/test")) "debug" eq_refl))).
Defined.

(** ** JSON binding *)

(** C7, as stated, fails.  A request without a body and without a content
    type gets the error "request body is empty", not the content-type
    error: the body is looked at first.  And a request whose body is there
    with no bytes, without a content type, gets the content-type error,
    not the empty-body error: the header is looked at before the body is
    read. *)
Lemma bindJSON_as_stated_counterexample :
  (¬ hasJSONContentType (postUsers ∅ None)
   ∧ (BindJSON (postUsers ∅ None) {| tests.Name := EmptyString |}).2 = Some noBodyError)
  ∧ (http.Body (Request (postUsers ∅ (Some (bytesReader EmptyString))))
     = Some (bytesReader EmptyString)
     ∧ (BindJSON (postUsers ∅ (Some (bytesReader EmptyString)))
          {| tests.Name := EmptyString |}).2 = Some contentTypeError)
  ∧ ¬ bindJSON_as_stated.
Proof.
  assert (¬ hasJSONContentType (postUsers ∅ None)) as Hct by (vm_compute; discriminate).
  split; [split; [exact Hct | reflexivity] |]. split; [split; reflexivity |].
  intros Hclaim.
  destruct (Hclaim (postUsers ∅ None) {| tests.Name := EmptyString |}) as (_ & Hsecond & _).
  specialize (Hsecond Hct). vm_compute in Hsecond. discriminate Hsecond.
Qed.

(** A well-formed body that does not fit the target is an error too. *)
Lemma bindJSON_wellformed_misfit :
  json.parse nameFive = Some (json.Object [("name", json.Number "5")])
  ∧ ∃ err, (BindJSON (postUsers jsonHeader (Some (bytesReader nameFive)))
              {| tests.Name := EmptyString |}).2 = Some err.
Proof. split; [vm_compute; reflexivity | eexists; vm_compute; reflexivity]. Qed.

(** C7, amended.  Without a body the result is the error "request body is
    empty".  With a body: the content-type error when the header does not
    mention application/json; otherwise, the body read without a failure,
    the empty-body error when it has no bytes, and else whatever
    [json.Unmarshal] makes of it, target and error; so the body
    [{"name":"mows"}] sets [Name] to ["mows"] without an error. *)
Theorem bindJSON_outcomes {T : Type} `{json.Target T} (c : Context) (v : T) :
  (http.Body (Request c) = None → (BindJSON c v).2 = Some noBodyError)
  ∧ (∀ rd, http.Body (Request c) = Some rd → ¬ hasJSONContentType c →
           (BindJSON c v).2 = Some contentTypeError)
  ∧ (∀ rd, http.Body (Request c) = Some rd → hasJSONContentType c →
           http.failure rd = None → http.unread rd = EmptyString →
           (BindJSON c v).2 = Some emptyBodyError)
  ∧ (∀ rd, http.Body (Request c) = Some rd → hasJSONContentType c →
           http.failure rd = None → http.unread rd ≠ EmptyString →
           (BindJSON c v).1.2 = (json.Unmarshal (http.unread rd) v).1
           ∧ (BindJSON c v).2 = (json.Unmarshal (http.unread rd) v).2)
  ∧ (BindJSON (postUsers jsonHeader (Some (bytesReader nameMows)))
       {| tests.Name := EmptyString |}).1.2 = {| tests.Name := "mows" |}
  ∧ (BindJSON (postUsers jsonHeader (Some (bytesReader nameMows)))
       {| tests.Name := EmptyString |}).2 = None.
Proof.
  unfold hasJSONContentType, BindJSON.
  split; [| split; [| split; [| split; [| split]]]].
  - by intros ->.
  - intros rd -> Hct. apply not_true_is_false in Hct. by rewrite Hct.
  - intros rd -> Hct Hfail Hempty. rewrite Hct. cbn [negb http.ReadAll].
    by rewrite Hfail, Hempty.
  - intros rd -> Hct Hfail Hne. rewrite Hct. cbn [negb http.ReadAll].
    rewrite Hfail.
    destruct (http.unread rd) as [| ch rest] eqn:Hbody; [done |].
    cbn [String.length Nat.eqb].
    by destruct (json.Unmarshal (String ch rest) v) as [v' [err |]].
  - vm_compute. reflexivity.
  - vm_compute. reflexivity.
Qed.

Lemma bindJSON_outcomes_witness :
  (BindJSON (postUsers ∅ (Some (bytesReader nameMows))) {| tests.Name := EmptyString |}).2
  = Some contentTypeError
  ∧ (BindJSON (postUsers jsonHeader (Some (bytesReader EmptyString)))
       {| tests.Name := EmptyString |}).2 = Some emptyBodyError
  ∧ (BindJSON (postUsers jsonHeader None) {| tests.Name := EmptyString |}).2
    = Some noBodyError.
Proof.
  split; [| split].
  - apply (proj1 (proj2 (bindJSON_outcomes
                           (postUsers ∅ (Some (bytesReader nameMows)))
                           {| tests.Name := EmptyString |})) (bytesReader nameMows)).
    + reflexivity.
    + vm_compute. discriminate.
  - apply (proj1 (proj2 (proj2 (bindJSON_outcomes
                                  (postUsers jsonHeader (Some (bytesReader EmptyString)))
                                  {| tests.Name := EmptyString |})))
             (bytesReader EmptyString)); reflexivity.
  - apply (proj1 (bindJSON_outcomes (postUsers jsonHeader None)
                    {| tests.Name := EmptyString |})). reflexivity.
Defined.

(** * Further properties of the package *)

(** ** Routing *)

(** X1. A registration under one method changes nothing for the requests
    of another method: [find] answers them as before. *)
Theorem registration_is_per_method
    (r : Router) (method other path request : string) (h : HandlerFunc) (s : slices.slice) :
  method ≠ other →
  find (addWithMiddleware r method path h s) other request = find r other request.
Proof.
  intros Hne. unfold find, addWithMiddleware.
  destruct (hasParams path); cbn [negb staticRoutes paramRoutes];
    by rewrite lookup_insert_ne.
Qed.

Lemma registration_is_per_method_witness :
  find (addWithMiddleware (registerAll [regUserById; regPostMe]) "GET" "/users/me"
          (respond 200 "me") slices.nil) "POST" "/users/me"
  = find (registerAll [regUserById; regPostMe]) "POST" "/users/me".
Proof.
  apply registration_is_per_method. discriminate.
Defined.

Lemma underlying_iHeaderDel (w : ResponseWriter) (key : string) :
  underlying (iHeaderDel w key) = httptest.DelHeader (underlying w) key.
Proof. induction w; simpl; auto. Qed.

Lemma underlying_NotFound (w : ResponseWriter) :
  underlying (NotFound w) = notFoundResponse (underlying w).
Proof.
  unfold NotFound, notFoundResponse.
  rewrite underlying_iWrite, underlying_iWriteHeader, !underlying_iHeaderSet,
    underlying_iHeaderDel. done.
Qed.

(** X2. A request that no route matches runs nothing of the application:
    the application state is as it was, no middleware, handler or error
    handler has run (another error handler gives the same result), the
    transport gets the 404 answer of [http.NotFound], and the context's
    own wrapper, which is not written through, still records status 200
    and no bytes.  A new engine has no route at all. *)
Theorem dispatch_miss_runs_nothing
    (e : Engine) (mem : gmap slices.loc (list Middleware)) (w : ResponseWriter)
    (r : http.Request) (app : list string) :
  (find (router e) (http.Method r) (http.URL_Path r)).1 = None →
  journal (handle e mem w r app) = app
  ∧ (∀ eh : ErrorHandler, handle (SetErrorHandler e eh) mem w r app = handle e mem w r app)
  ∧ recorderOf (handle e mem w r app) = notFoundResponse (underlying w)
  ∧ (httptest.wroteHeader (underlying w) = false →
     httptest.Code (recorderOf (handle e mem w r app)) = 404%Z
     ∧ httptest.Body (recorderOf (handle e mem w r app))
       = httptest.Body (underlying w) +:+ "404 page not found" +:+ newline)
  ∧ status (Writer (ctx (handle e mem w r app))) = 200%Z
  ∧ size (Writer (ctx (handle e mem w r app))) = 0%Z
  ∧ ∀ method path : string, find (router New) method path = (None, None).
Proof.
  intros Hmiss.
  assert (∀ eh, handle (SetErrorHandler e eh) mem w r app
                = {| ctx := setWriter (NewContext (newResponseWriter w) r)
                              {| embedded := NotFound w; status := 200; size := 0 |};
                     journal := app |}) as Hh.
  { intros eh. unfold handle. cbn [router SetErrorHandler].
    destruct (find (router e) (http.Method r) (http.URL_Path r)) as [[rt |] params];
      [discriminate Hmiss | done]. }
  assert (handle e mem w r app
          = {| ctx := setWriter (NewContext (newResponseWriter w) r)
                        {| embedded := NotFound w; status := 200; size := 0 |};
               journal := app |}) as Hhe.
  { rewrite <- (Hh (errorHandler e)). by destruct e. }
  rewrite Hhe. unfold recorderOf. cbn [ctx journal setWriter Writer embedded status size].
  rewrite underlying_NotFound.
  split; [done |]. split; [intros eh; by rewrite Hh |]. split; [done |].
  split; [| done].
  unfold notFoundResponse. destruct (underlying w) as [code hm body wrote].
  cbn [httptest.wroteHeader]. by intros ->.
Qed.

Lemma dispatch_miss_runs_nothing_witness :
  journal (handle helloApp.1 helloApp.2 (transport httptest.NewRecorder)
             (request "POST" "/hello") ["started"]) = ["started"].
Proof.
  apply (dispatch_miss_runs_nothing helloApp.1 helloApp.2 (transport httptest.NewRecorder)
           (request "POST" "/hello") ["started"]). reflexivity.
Defined.

(** X3. The configured error handler matters only to a request whose chain
    returns an error: when the chain of the matched route returns nil, the
    dispatcher's result is what the chain left, whatever the handler. *)
Theorem error_handler_is_idle_without_error
    (e : Engine) (mem : gmap slices.loc (list Middleware)) (w : ResponseWriter)
    (r : http.Request) (app : list string) (rt : route)
    (params : option (gmap string string)) (c' : World) (eh : ErrorHandler) :
  find (router e) (http.Method r) (http.URL_Path r) = (Some rt, params) →
  assemble e mem rt (startWorld w r params app) = (c', None) →
  handle e mem w r app = c' ∧ handle (SetErrorHandler e eh) mem w r app = c'.
Proof.
  intros Hfind Hrun.
  assert (∀ eh', handle (SetErrorHandler e eh') mem w r app = c') as Hh.
  { intros eh'. unfold handle. cbn [router SetErrorHandler]. rewrite Hfind.
    rewrite assemble_SetErrorHandler.
    change {| ctx := setParams (NewContext (newResponseWriter w) r) params; journal := app |}
      with (startWorld w r params app).
    by rewrite Hrun. }
  split; [| apply Hh]. rewrite <- (Hh (errorHandler e)). by destruct e.
Qed.

Lemma error_handler_is_idle_without_error_witness :
  handle (SetErrorHandler helloApp.1 recordingErrorHandler) helloApp.2
    (transport httptest.NewRecorder) (request "GET" "/hello") []
  = (respond 200 "world" (startWorld (transport httptest.NewRecorder)
                            (request "GET" "/hello") None [])).1.
Proof.
  apply (error_handler_is_idle_without_error helloApp.1 helloApp.2
           (transport httptest.NewRecorder) (request "GET" "/hello") []
           {| handler := respond 200 "world"; middlewares := slices.nil |} None);
    reflexivity.
Defined.

(** ** The response writer *)



(** ** Handlers of one route *)

Lemma wrapped_handlers_run_in_order (hs : list HandlerFunc) (h : HandlerFunc) (w : World) :
  chain (map wrapHandlerAsMiddleware hs) h w = runInOrder (hs ++ [h]) w.
Proof.
  revert w. induction hs as [| h0 hs IH]; intros w.
  - cbn. by destruct (h w) as [w1 [err |]].
  - cbn [map chain foldr app runInOrder]. unfold wrapHandlerAsMiddleware at 1.
    fold (chain (map wrapHandlerAsMiddleware hs) h).
    destruct (h0 w) as [w1 [err |]]; [done |].
    rewrite IH. by destruct (runInOrder (hs ++ [h]) w1) as [w2 [err |]].
Qed.



(** ** Declaring middleware *)

(** X6. [Engine.Use] puts the new middleware behind the ones declared so
    far and leaves the routes and the error handler alone; the dispatcher
    reads the global list at each request, so the middleware of every
    [Use], in call order, wraps every route, whenever it was registered. *)
Theorem engine_use_extends_every_chain
    (slack : nat → nat → nat) (e : Engine) (mem : gmap slices.loc (list Middleware))
    (ms : slices.slice) :
  slices.wf mem (e_middlewares e) →
  let e1 := (Engine_Use slack e mem ms).1 in
  let mem1 := (Engine_Use slack e mem ms).2 in
  router e1 = router e
  ∧ errorHandler e1 = errorHandler e
  ∧ slices.view mem1 (e_middlewares e1)
    = slices.view mem (e_middlewares e) ++ slices.view mem ms
  ∧ slices.wf mem1 (e_middlewares e1)
  ∧ (∀ final : HandlerFunc,
       buildChain e1 mem1 final
       = chain (slices.view mem (e_middlewares e)) (chain (slices.view mem ms) final))
  ∧ (∀ rt : route,
       assemble e1 mem1 rt
       = chain (slices.view mem (e_middlewares e) ++ slices.view mem ms
                ++ slices.view mem1 (middlewares rt)) (handler rt)).
Proof.
  intros Hwf e1 mem1. subst e1 mem1. unfold Engine_Use.
  pose proof (append_view slack mem (e_middlewares e) (slices.view mem ms) Hwf) as Hv.
  pose proof (append_wf slack mem (e_middlewares e) (slices.view mem ms) Hwf) as Hw.
  destruct (slices.append slack mem (e_middlewares e) (slices.view mem ms)) as [s mem1].
  cbn [fst snd router errorHandler e_middlewares] in *.
  split; [done |]. split; [done |]. split; [exact Hv |]. split; [exact Hw |]. split.
  - intros final. rewrite buildChain_chain. cbn [e_middlewares].
    by rewrite Hv, chain_app.
  - intros rt. rewrite assemble_chain. cbn [e_middlewares]. by rewrite Hv, <- app_assoc.
Qed.

Lemma engine_use_extends_every_chain_witness :
  slices.view (Engine_Use doubling sampleEngine sampleMem traceArg).2
    (e_middlewares (Engine_Use doubling sampleEngine sampleMem traceArg).1)
  = [stage "audit" None; stage "trace" None].
Proof.
  assert (slices.wf sampleMem (e_middlewares sampleEngine)) as Hwf.
  { split; [vm_compute; lia | right; vm_compute; lia]. }
  exact (proj1 (proj2 (proj2 (engine_use_extends_every_chain
                                doubling sampleEngine sampleMem traceArg Hwf)))).
Defined.



(** ** Binding *)

(** X8. [BindJSON] reads the body to its end: a second [BindJSON] on the
    same request, whatever the first one returned from the decoder, finds
    no bytes and returns the empty-body error, and leaves its target as
    it is. *)
Theorem bindJSON_consumes_the_body
    {T : Type} `{json.Target T} (c : Context) (v v2 : T) (rd : http.Reader) :
  http.Body (Request c) = Some rd →
  hasJSONContentType c →
  http.failure rd = None →
  (BindJSON (BindJSON c v).1.1 v2).2 = Some emptyBodyError
  ∧ (BindJSON (BindJSON c v).1.1 v2).1.2 = v2.
Proof.
  unfold hasJSONContentType. intros Hbody Hct Hfail.
  assert (∃ v', (BindJSON c v).1.1
                = setBody c (Some {| http.unread := EmptyString; http.failure := None |})
                ∧ (BindJSON c v).1.2 = v') as (v' & Hc & _).
  { unfold BindJSON. rewrite Hbody, Hct. cbn [negb http.ReadAll]. rewrite Hfail.
    destruct (String.length (http.unread rd) =? 0); [by eexists |].
    destruct (json.Unmarshal (http.unread rd) v) as [v' [err |]]; by eexists. }
  rewrite Hc. unfold BindJSON.
  cbn [setBody Request http.Body http.Header]. rewrite Hct. done.
Qed.

Lemma bindJSON_consumes_the_body_witness :
  (BindJSON (BindJSON (postUsers jsonHeader (Some (bytesReader nameMows)))
               {| tests.Name := EmptyString |}).1.1 {| tests.Name := "kept" |}).2
  = Some emptyBodyError.
Proof.
  apply (bindJSON_consumes_the_body (postUsers jsonHeader (Some (bytesReader nameMows)))
           {| tests.Name := EmptyString |} {| tests.Name := "kept" |}
           (bytesReader nameMows)); reflexivity.
Defined.

(** ** Parameters *)

Lemma foldl_bind_lookup (name : string) (prs : list (string * string)) :
  ∀ acc : gmap string string,
    foldl bind acc prs !! name =
    match last (omap (λ pr : string * string,
                        if isCapture pr.1 && String.eqb (captureName pr.1) name
                        then Some pr.2 else None) prs) with
    | Some v => Some v
    | None => acc !! name
    end.
Proof.
  induction prs as [| [p x] prs IH]; intros acc; [done |].
  cbn [foldl omap list_omap]. rewrite IH. unfold bind. cbn [fst snd].
  destruct (isCapture p) eqn:Hcap; cbn [andb].
  - destruct (String.eqb_spec (captureName p) name) as [Heq | Hne].
    + cbn [mbind option_bind]. rewrite last_cons.
      destruct (last _) as [v |]; [done |]. by rewrite Heq, lookup_insert_eq.
    + destruct (last _) as [v |]; [done |]. by rewrite lookup_insert_ne.
  - done.
Qed.

(** X9. What a handler reads with [c.Param]: when [find] answers from a
    parameterized route, the value of a name is the request segment at
    the last capture of that name in the route's pattern, and the empty
    string for a name the pattern does not capture.  After a static match
    every name reads as the empty string. *)
Theorem param_reads_the_captured_segment
    (regs : list registration) (method path : string) (rt : route)
    (params : gmap string string) (c : Context) :
  find (registerAll regs) method path = (Some rt, Some params) →
  ∃ reg : registration,
    reg ∈ regs ∧ rt = routeOf reg
    ∧ length (segmentsOf (reg_path reg)) = length (segmentsOf path)
    ∧ (∀ name : string,
         Param (setParams c (Some params)) name
         = default EmptyString
             (last (capturedAs name (segmentsOf (reg_path reg)) (segmentsOf path))))
    ∧ (∀ name : string, Param (setParams c None) name = EmptyString).
Proof.
  intros Hfind.
  destruct (staticLookup (registerAll regs) method path) as [rt0 |] eqn:Hstatic.
  { rewrite (find_static _ _ _ _ Hstatic) in Hfind. discriminate Hfind. }
  rewrite find_no_static, paramRoutes_registerAll, scan_firstMatch in Hfind by done.
  fold (segmentsOf path) in Hfind.
  destruct (firstMatch (segmentsOf path) (candidatesOf method regs)) as [reg |] eqn:Hfirst;
    [| discriminate Hfind].
  injection Hfind as <- <-.
  destruct (firstMatch_earliest _ _ _ _ Hfirst) as (before & after & -> & _ & Hm & _).
  exists reg. split; [apply elem_of_app; right; apply elem_of_cons; by left |].
  split; [done |]. split.
  { unfold candidateMatches in Hm. apply andb_true_iff in Hm as [Hlen _].
    by apply Nat.eqb_eq in Hlen. }
  split; [| done].
  intros name. unfold Param. cbn [setParams Params]. unfold bindings, capturedAs.
  rewrite foldl_bind_lookup. rewrite lookup_empty.
  by destruct (last _).
Qed.

Lemma param_reads_the_captured_segment_witness :
  ∃ reg : registration,
    reg ∈ [regUserMe; regUserById; regAnyPair]
    ∧ routeOf regUserById = routeOf reg
    ∧ length (segmentsOf (reg_path reg)) = length (segmentsOf "/users/42/")
    ∧ (∀ name : string,
         Param (setParams (postUsers ∅ None) (Some {[ "id" := "42" ]})) name
         = default EmptyString
             (last (capturedAs name (segmentsOf (reg_path reg)) (segmentsOf "/users/42/"))))
    ∧ (∀ name : string, Param (setParams (postUsers ∅ None) None) name = EmptyString).
Proof.
  apply (param_reads_the_captured_segment [regUserMe; regUserById; regAnyPair]
           "GET" "/users/42/"). reflexivity.
Defined.

(** ** Slashes *)

Lemma TrimRight_trailing (t : string) :
  strings.TrimRight (t +:+ "/") "/" = strings.TrimRight t "/".
Proof.
  induction t as [| ch t IH]; [done |].
  change (String ch t +:+ "/") with (String ch (t +:+ "/")).
  cbn [strings.TrimRight]. by rewrite IH.
Qed.

Lemma Trim_trailing (s : string) :
  strings.Trim (s +:+ "/") "/" = strings.Trim s "/".
Proof.
  unfold strings.Trim. induction s as [| ch s IH]; [done |].
  change (String ch s +:+ "/") with (String ch (s +:+ "/")).
  cbn [strings.TrimLeft]. destruct (strings.inCutset ch "/"); [exact IH |].
  apply (TrimRight_trailing (String ch s)).
Qed.

Lemma Trim_leading (s : string) :
  strings.Trim ("/" +:+ s) "/" = strings.Trim s "/".
Proof. reflexivity. Qed.

(** X10. Static routes are exact, parameterized routes are not: for a
    request that no static route answers, with or without the extra
    slash, one more slash at the end or at the start of the path changes
    nothing in what [find] returns, route and parameters. *)
Theorem param_matching_ignores_outer_slashes (r : Router) (method path : string) :
  staticLookup r method path = None →
  (staticLookup r method (path +:+ "/") = None →
   find r method (path +:+ "/") = find r method path)
  ∧ (staticLookup r method ("/" +:+ path) = None →
     find r method ("/" +:+ path) = find r method path).
Proof.
  intros Hs. split; intros Hs'; rewrite !find_no_static by done.
  - by rewrite Trim_trailing.
  - by rewrite Trim_leading.
Qed.

Lemma param_matching_ignores_outer_slashes_witness :
  find (registerAll [regUserMe; regUserById]) "GET" ("/users/42" +:+ "/")
  = find (registerAll [regUserMe; regUserById]) "GET" "/users/42".
Proof.
  apply (param_matching_ignores_outer_slashes
           (registerAll [regUserMe; regUserById]) "GET" "/users/42"); reflexivity.
Defined.

(** ** Captures and the static table *)

Section colon_facts.
Implicit Types (s t seg cut : string) (c : ascii).

Lemma prefix_colon_tail c s t :
  String.prefix ":" (String c s) = String.prefix ":" (String c t).
Proof.
  change (String.prefix ":" (String c s))
    with (if Ascii.ascii_dec ":" c then String.prefix EmptyString s else false).
  change (String.prefix ":" (String c t))
    with (if Ascii.ascii_dec ":" c then String.prefix EmptyString t else false).
  by destruct s, t.
Qed.

Lemma Contains_tail c s pat :
  strings.Contains s pat = true → strings.Contains (String c s) pat = true.
Proof. intros Hs. cbn [strings.Contains]. rewrite Hs. apply orb_true_r. Qed.

Lemma Contains_colon_cons c s :
  strings.Contains (String c s) ":" = true →
  String.prefix ":" (String c EmptyString) = true ∨ strings.Contains s ":" = true.
Proof.
  cbn [strings.Contains]. intros Hc. apply orb_true_iff in Hc as [Hp | Hs]; [left | by right].
  by rewrite (prefix_colon_tail c EmptyString s).
Qed.

Lemma Contains_colon_head c s :
  String.prefix ":" (String c EmptyString) = true →
  strings.Contains (String c s) ":" = true.
Proof.
  intros Hp. cbn [strings.Contains].
  by rewrite (prefix_colon_tail c s EmptyString), Hp.
Qed.

Lemma Contains_Split s : ∀ seg,
  seg ∈ strings.Split s "/" → strings.Contains seg ":" = true →
  strings.Contains s ":" = true.
Proof.
  induction s as [| c s IH]; intros seg Hin Hseg.
  - cbn in Hin. apply list_elem_of_singleton in Hin as ->. done.
  - cbn [strings.Split] in Hin. destruct (Ascii.eqb c "/").
    + apply elem_of_cons in Hin as [-> | Hin]; [done |].
      apply Contains_tail. by apply (IH seg).
    + destruct (strings.Split s "/") as [| piece pieces] eqn:Hsplit.
      * apply list_elem_of_singleton in Hin as ->.
        apply Contains_colon_cons in Hseg as [Hp | Hs]; [| done].
        by apply Contains_colon_head.
      * apply elem_of_cons in Hin as [-> | Hin].
        -- apply Contains_colon_cons in Hseg as [Hp | Hs].
           ++ by apply Contains_colon_head.
           ++ apply Contains_tail, (IH piece); [apply elem_of_cons; by left | done].
        -- apply Contains_tail, (IH seg); [apply elem_of_cons; by right | done].
Qed.

Lemma Contains_TrimLeft s cut pat :
  strings.Contains (strings.TrimLeft s cut) pat = true → strings.Contains s pat = true.
Proof.
  induction s as [| c s IH]; [done |].
  cbn [strings.TrimLeft]. destruct (strings.inCutset c cut); [| done].
  intros Ht. by apply Contains_tail, IH.
Qed.

Lemma Contains_TrimRight s cut :
  strings.Contains (strings.TrimRight s cut) ":" = true → strings.Contains s ":" = true.
Proof.
  induction s as [| c s IH]; [done |].
  cbn [strings.TrimRight].
  destruct (strings.TrimRight s cut) as [| c' t] eqn:Ht.
  - destruct (strings.inCutset c cut); [done |].
    intros Hc. apply Contains_colon_cons in Hc as [Hp | Hs]; [| done].
    by apply Contains_colon_head.
  - intros Hc. apply Contains_colon_cons in Hc as [Hp | Hs].
    + by apply Contains_colon_head.
    + by apply Contains_tail, IH.
Qed.

End colon_facts.

(** X11. The test that sorts a path into the static table and the test
    that makes a segment a capture agree in one direction: a path one of
    whose segments starts with a colon is never stored as static, so a
    capture written in a path always captures.  A path without any colon
    has no capture among its segments. *)
Theorem capture_segments_are_never_static (path seg : string) :
  seg ∈ segmentsOf path →
  isCapture seg = true →
  hasParams path = true
  ∧ ∀ (r : Router) (method : string) (h : HandlerFunc) (s : slices.slice),
      staticRoutes (addWithMiddleware r method path h s) = staticRoutes r.
Proof.
  intros Hin Hcap.
  assert (hasParams path = true) as Hp.
  { unfold hasParams. unfold segmentsOf, strings.Trim in Hin.
    apply (Contains_TrimLeft path "/"), (Contains_TrimRight _ "/").
    apply (Contains_Split _ seg Hin).
    unfold isCapture, strings.HasPrefix in Hcap.
    destruct seg as [| c seg]; [done |]. cbn [strings.Contains]. by rewrite Hcap. }
  split; [exact Hp |].
  intros r method h s. unfold addWithMiddleware. by rewrite Hp.
Qed.

Lemma capture_segments_are_never_static_witness :
  hasParams "/users/:id/posts" = true.
Proof.
  apply (capture_segments_are_never_static "/users/:id/posts" ":id").
  - vm_compute. apply elem_of_cons. right. apply elem_of_cons. by left.
  - reflexivity.
Defined.

(** ** Integers in the query *)

Section decimal_facts.
Implicit Types (n acc : Z) (s rest : string) (c : ascii).

Lemma digit_char (d : nat) :
  d < 10 →
  strconv.isDigit (ascii_of_nat (48 + d)) = true
  ∧ nat_of_ascii (ascii_of_nat (48 + d)) - 48 = d.
Proof.
  intros Hd. unfold strconv.isDigit. rewrite nat_ascii_embedding by lia.
  split; [| lia]. apply andb_true_iff. split; apply Nat.leb_le; lia.
Qed.

Lemma digits_cons_digit (d : nat) acc s :
  d < 10 →
  strconv.digits acc (String (ascii_of_nat (48 + d)) s)
  = strconv.digits (10 * acc + Z.of_nat d) s.
Proof.
  intros Hd. destruct (digit_char d Hd) as [Hdig Hval].
  cbn [strconv.digits]. by rewrite Hdig, Hval.
Qed.

(** Reading the digits that [formatDigits] wrote gives the number back. *)
Lemma digits_formatDigits (fuel : nat) : ∀ n s,
  (0 ≤ n < 10 ^ Z.of_nat fuel)%Z →
  strconv.digits 0 (strconv.formatDigits fuel n s) = strconv.digits n s.
Proof.
  induction fuel as [| fuel IH]; intros n s Hn.
  - cbn in *. by replace n with 0%Z by lia.
  - cbn [strconv.formatDigits].
    assert (Z.to_nat (n mod 10) < 10) as Hd by (pose proof (Z.mod_pos_bound n 10); lia).
    destruct (Z.ltb_spec n 10) as [Hsmall | Hbig].
    + rewrite digits_cons_digit by done. f_equal.
      rewrite Z2Nat.id by (apply Z.mod_pos_bound; lia). rewrite Z.mod_small; lia.
    + rewrite IH.
      * rewrite digits_cons_digit by done. f_equal.
        rewrite Z2Nat.id by (apply Z.mod_pos_bound; lia).
        pose proof (Z.div_mod n 10). lia.
      * rewrite Nat2Z.inj_succ, Z.pow_succ_r in Hn by lia.
        split; [apply Z.div_pos; lia |]. apply Z.div_lt_upper_bound; lia.
Qed.

(** [formatDigits] with fuel writes at least one digit, first. *)
Lemma formatDigits_head (fuel : nat) : ∀ n s,
  (0 ≤ n)%Z →
  ∃ (d : nat) rest,
    d < 10 ∧ strconv.formatDigits (S fuel) n s = String (ascii_of_nat (48 + d)) rest.
Proof.
  induction fuel as [| fuel IH]; intros n s Hn.
  - exists (Z.to_nat (n mod 10)), s. split.
    + pose proof (Z.mod_pos_bound n 10). lia.
    + cbn. by destruct (n <? 10)%Z.
  - cbn [strconv.formatDigits]. destruct (Z.ltb_spec n 10) as [Hsmall | Hbig].
    + eexists _, _. split; [| reflexivity]. pose proof (Z.mod_pos_bound n 10). lia.
    + apply (IH (n / 10)%Z). apply Z.div_pos; lia.
Qed.

(** [Atoi] on a string that starts with a digit: no sign to take off. *)
Lemma Atoi_unsigned (d : nat) rest :
  d < 10 →
  strconv.Atoi (String (ascii_of_nat (48 + d)) rest) =
  match strconv.digits 0 (String (ascii_of_nat (48 + d)) rest) with
  | None => (0%Z, Some (strconv.errSyntax "strconv.Atoi" (String (ascii_of_nat (48 + d)) rest)))
  | Some n =>
      if (n <? 2 ^ 63)%Z then (n, None)
      else ((2 ^ 63 - 1)%Z,
            Some (strconv.errRange "strconv.Atoi" (String (ascii_of_nat (48 + d)) rest)))
  end.
Proof.
  intros Hd. do 10 (destruct d as [| d]; [reflexivity |]). lia.
Qed.

Lemma Atoi_negative (d : nat) rest :
  d < 10 →
  strconv.Atoi (String "-" (String (ascii_of_nat (48 + d)) rest)) =
  match strconv.digits 0 (String (ascii_of_nat (48 + d)) rest) with
  | None =>
      (0%Z, Some (strconv.errSyntax "strconv.Atoi"
                    (String "-" (String (ascii_of_nat (48 + d)) rest))))
  | Some n =>
      if (n <=? 2 ^ 63)%Z then ((- n)%Z, None)
      else ((- 2 ^ 63)%Z,
            Some (strconv.errRange "strconv.Atoi"
                    (String "-" (String (ascii_of_nat (48 + d)) rest))))
  end.
Proof.
  intros Hd. do 10 (destruct d as [| d]; [reflexivity |]). lia.
Qed.

Lemma Atoi_Itoa (i : Z) :
  (- 2 ^ 63 ≤ i < 2 ^ 63)%Z → strconv.Atoi (strconv.Itoa i) = (i, None).
Proof.
  intros Hi. unfold strconv.Itoa. destruct (Z.ltb_spec i 0) as [Hneg | Hpos].
  - destruct (formatDigits_head 19 (- i) EmptyString) as (d & rest & Hd & Hfmt); [lia |].
    pose proof (digits_formatDigits 20 (- i) EmptyString) as Hdig.
    rewrite Hfmt in *. rewrite Atoi_negative by done.
    rewrite Hdig by (change (10 ^ Z.of_nat 20)%Z with 100000000000000000000%Z; lia).
    cbn [strconv.digits].
    destruct (Z.leb_spec (- i) (2 ^ 63)); [| lia]. f_equal. lia.
  - destruct (formatDigits_head 19 i EmptyString) as (d & rest & Hd & Hfmt); [lia |].
    pose proof (digits_formatDigits 20 i EmptyString) as Hdig.
    rewrite Hfmt in *. rewrite Atoi_unsigned by done.
    rewrite Hdig by (change (10 ^ Z.of_nat 20)%Z with 100000000000000000000%Z; lia).
    cbn [strconv.digits].
    by destruct (Z.ltb_spec i (2 ^ 63)); [| lia].
Qed.

Lemma Itoa_nonempty (i : Z) : strconv.Itoa i ≠ EmptyString.
Proof.
  unfold strconv.Itoa. destruct (Z.ltb_spec i 0) as [Hneg | Hpos]; [done |].
  destruct (formatDigits_head 19 i EmptyString) as (d & rest & _ & ->); [lia | done].
Qed.

End decimal_facts.

(** X12. An integer written by [strconv.Itoa] comes back: for every [int]
    [i], a request whose query value for a key is the decimal form of [i]
    makes [QueryInt] return [i] without an error and [DefaultQueryInt]
    return [i] rather than its default. *)
Theorem query_int_reads_back_itoa (c : Context) (key : string) (i defaultValue : Z) :
  (- 2 ^ 63 ≤ i < 2 ^ 63)%Z →
  Query c key = strconv.Itoa i →
  strconv.Atoi (strconv.Itoa i) = (i, None)
  ∧ QueryInt c key = (i, None)
  ∧ DefaultQueryInt c key defaultValue = i.
Proof.
  intros Hi Hq. pose proof (Atoi_Itoa i Hi) as Hround.
  pose proof (Itoa_nonempty i) as Hne.
  split; [exact Hround |].
  unfold QueryInt, DefaultQueryInt. rewrite Hq.
  destruct (String.eqb_spec (strconv.Itoa i) EmptyString) as [Heq | _]; [done |].
  by rewrite Hround.
Qed.

Lemma query_int_reads_back_itoa_witness :
  QueryInt (NewContext (newResponseWriter (transport httptest.NewRecorder))
              (requestWithQuery "/test" "page" "-9223372036854775808")) "page"
  = ((- 9223372036854775808)%Z, None).
Proof.
  apply (query_int_reads_back_itoa
           (NewContext (newResponseWriter (transport httptest.NewRecorder))
              (requestWithQuery "/test" "page" "-9223372036854775808"))
           "page" (- 9223372036854775808) 1).
  - lia.
  - reflexivity.
Defined.

(** ** Encoding and decoding *)

Section json_round_trip.
Implicit Types (s key val tail rest : string) (c : ascii) (fuel : nat).

(** One encoded byte is read back as that byte, all 256 of them. *)
Lemma parseString_escapeByte c fuel tail :
  json.parseString (S fuel) (json.escapeByte c +:+ tail)
  = '(t, rest) ← json.parseString fuel tail; Some (String c t, rest).
Proof. destruct c as [[] [] [] [] [] [] [] []]; reflexivity. Qed.

Lemma escapeByte_length c : 1 ≤ String.length (json.escapeByte c).
Proof. destruct c as [[] [] [] [] [] [] [] []]; vm_compute; lia. Qed.

Lemma parseString_escape s : ∀ fuel tail,
  String.length (json.escape s) < fuel →
  json.parseString fuel (json.escape s +:+ dquote +:+ tail) = Some (s, tail).
Proof.
  induction s as [| c s IH]; intros fuel tail Hfuel.
  - destruct fuel as [| fuel]; [cbn in Hfuel; lia |]. reflexivity.
  - change (json.escape (String c s)) with (json.escapeByte c +:+ json.escape s) in *.
    rewrite append_length in Hfuel. pose proof (escapeByte_length c).
    destruct fuel as [| fuel]; [lia |].
    rewrite append_assoc, parseString_escapeByte, IH by lia. done.
Qed.

Lemma parseString_quoted s tail :
  json.parseString (String.length (json.escape s +:+ dquote +:+ tail))
    (json.escape s +:+ dquote +:+ tail) = Some (s, tail).
Proof.
  apply parseString_escape. rewrite !append_length.
  change (String.length dquote) with 1. lia.
Qed.

Lemma parseValue_quoted fuel s tail :
  json.parseValue (S fuel) (String (ascii_of_nat 34) (json.escape s +:+ dquote +:+ tail))
  = Some (json.Str s, tail).
Proof.
  change (json.parseValue (S fuel)
            (String (ascii_of_nat 34) (json.escape s +:+ dquote +:+ tail)))
    with ('(str, rest') ← json.parseString
                            (String.length (json.escape s +:+ dquote +:+ tail))
                            (json.escape s +:+ dquote +:+ tail);
          Some (json.Str str, rest')).
  by rewrite parseString_quoted.
Qed.

Lemma parseMembers_quote fuel rest :
  json.parseMembers (S fuel) (String (ascii_of_nat 34) rest) =
  '(k, rest1) ← json.parseString (String.length rest) rest;
  match json.skipSpace rest1 with
  | String ":" rest2 =>
      '(v, rest3) ← json.parseValue fuel rest2;
      match json.skipSpace rest3 with
      | String "," rest4 =>
          '(kvs, rest5) ← json.parseMembers fuel rest4; Some ((k, v) :: kvs, rest5)
      | String "}" rest4 => Some ([(k, v)], rest4)
      | _ => None
      end
  | _ => None
  end.
Proof. reflexivity. Qed.

(** The members of an object with one string member, after the brace. *)
Lemma parseMembers_one fuel key val tail :
  json.parseMembers (S (S fuel))
    (String (ascii_of_nat 34)
       (json.escape key +:+ dquote +:+
        String ":" (String (ascii_of_nat 34)
                      (json.escape val +:+ dquote +:+ String "}" tail))))
  = Some ([(key, json.Str val)], tail).
Proof.
  rewrite parseMembers_quote, parseString_quoted.
  unfold mbind, option_bind.
  change (json.skipSpace (String ":" ?x)) with (String ":" x).
  cbv beta iota. rewrite parseValue_quoted.
  change (json.skipSpace (String "}" tail)) with (String "}" tail).
  reflexivity.
Qed.

(** A document with one string member is read back as it was written,
    whatever the bytes of the key and of the value. *)
Lemma parse_one_member key val :
  json.parse (json.Encode (json.Object [(key, json.Str val)]))
  = Some (json.Object [(key, json.Str val)]).
Proof.
  unfold json.parse.
  set (doc := json.Encode _).
  assert (doc = String "{" (String (ascii_of_nat 34)
                 (json.escape key +:+ dquote +:+
                  String ":" (String (ascii_of_nat 34)
                    (json.escape val +:+ dquote +:+ String "}" newline))))) as Hdoc.
  { subst doc. unfold json.Encode, json.Marshal, json.quote.
    rewrite !append_assoc. reflexivity. }
  assert (3 ≤ 2 * String.length doc + 2) as Hfuel.
  { rewrite Hdoc. cbn [String.length]. lia. }
  destruct (2 * String.length doc + 2) as [| [| [| fuel]]]; try lia.
  rewrite Hdoc.
  change (json.parseValue (S (S (S fuel))) (String "{" (String (ascii_of_nat 34) ?x)))
    with ('(kvs, rest') ← json.parseMembers (S (S fuel)) (String (ascii_of_nat 34) x);
          Some (json.Object kvs, rest')).
  rewrite parseMembers_one. reflexivity.
Qed.

End json_round_trip.





(** ** Registrars and lookup *)

(** X15. The four registrars of a group store a route with one handler
    under their own method and under the group's prefix followed by the
    path, byte for byte; when that has no colon, [find] returns the
    handler with the group's middleware and no parameters for exactly
    this method and path.  Nothing is allocated. *)
Theorem group_registrars_store_under_prefix
    (slack : nat → nat → nat) (rg : RouterGroup) (e : Engine)
    (mem : gmap slices.loc (list Middleware)) (path : string) (h : HandlerFunc) :
  slices.wf mem (rg_middlewares rg) →
  hasParams (prefix rg +:+ path) = false →
  let stored := {| handler := h; middlewares := rg_middlewares rg |} in
  (∃ e', RouterGroup_GET slack rg e mem path [h] = Returns (e', mem)
         ∧ find (router e') "GET" (prefix rg +:+ path) = (Some stored, None))
  ∧ (∃ e', RouterGroup_POST slack rg e mem path [h] = Returns (e', mem)
           ∧ find (router e') "POST" (prefix rg +:+ path) = (Some stored, None))
  ∧ (∃ e', RouterGroup_PUT slack rg e mem path [h] = Returns (e', mem)
           ∧ find (router e') "PUT" (prefix rg +:+ path) = (Some stored, None))
  ∧ (∃ e', RouterGroup_DELETE slack rg e mem path [h] = Returns (e', mem)
           ∧ find (router e') "DELETE" (prefix rg +:+ path) = (Some stored, None)).
Proof.
  intros Hwf Hstatic stored.
  assert (∀ method,
            ∃ e', addRoute slack e mem method (prefix rg +:+ path) (rg_middlewares rg) [h]
                  = Returns (e', mem)
                  ∧ find (router e') method (prefix rg +:+ path) = (Some stored, None))
    as Hall.
  { intros method. eexists. split.
    - rewrite (addRoute_snoc slack e mem method _ _ [] h). cbn [map].
      by rewrite append_none.
    - cbn [router setRouter]. apply find_static.
      apply (staticLookup_register_same (router e)
               {| reg_method := method; reg_path := prefix rg +:+ path; reg_handler := h;
                  reg_middlewares := rg_middlewares rg |}).
      exact Hstatic. }
  unfold RouterGroup_GET, RouterGroup_POST, RouterGroup_PUT, RouterGroup_DELETE.
  repeat split; apply Hall.
Qed.

Lemma group_registrars_store_under_prefix_witness :
  ∃ e', RouterGroup_GET doubling apiGroup New sampleMem "/ping" [respond 200 "pong"]
        = Returns (e', sampleMem)
        ∧ find (router e') "GET" "/api/ping"
          = (Some {| handler := respond 200 "pong"; middlewares := rg_middlewares apiGroup |},
             None).
Proof.
  apply (group_registrars_store_under_prefix doubling apiGroup New sampleMem "/ping"
           (respond 200 "pong") apiGroup_wf). reflexivity.
Defined.

(** ** ServeHTTP *)

Lemma iWrite_tracking (inner : ResponseWriter) (st sz : Z) (b : string) :
  recorded (iWrite (tracking inner st sz) b).1
  = Some (st, intAdd sz (Z.of_nat (String.length b))).
Proof.
  cbn [iWrite]. pose proof (iWrite_result inner b) as Hres.
  destruct (iWrite inner b) as [inner' [n err]]. cbn in *. by injection Hres as -> ->.
Qed.



(** ** Shadowed patterns *)

Section shadowed_routes.
Implicit Types (r : Router) (reg : registration) (method path : string).
Implicit Types (parts req : list string).

Lemma shadows_matches parts : ∀ parts' req,
  shadows parts parts' = true →
  candidateMatches parts' req = true →
  candidateMatches parts req = true.
Proof.
  unfold shadows, candidateMatches.
  induction parts as [| seg parts IH]; intros [| seg' parts'] [| x req] Hs Hm;
    cbn [length zip zip_with forallb Nat.eqb andb fst snd] in *; try done.
  apply andb_true_iff in Hs as [Hlen Hs]. apply andb_true_iff in Hs as [Hseg Hs].
  apply andb_true_iff in Hm as [Hlen' Hm]. apply andb_true_iff in Hm as [Hseg' Hm].
  specialize (IH parts' req). rewrite Hlen, Hs, Hlen', Hm in IH.
  specialize (IH eq_refl eq_refl). apply andb_true_iff in IH as [Hl Hall].
  rewrite Hl, Hall, andb_true_r. cbn [andb].
  unfold segmentAccepts in *.
  destruct (isCapture seg); [done |]. cbn [orb] in *.
  apply andb_true_iff in Hseg as [Hlit Heq]. apply negb_true_iff in Hlit.
  rewrite Hlit in Hseg'. cbn [orb] in Hseg'.
  apply String.eqb_eq in Heq. by subst seg'.
Qed.

Lemma find_list_app {A} (f : A → bool) (l1 l2 : list A) :
  List.find f (l1 ++ l2) =
  match List.find f l1 with Some x => Some x | None => List.find f l2 end.
Proof. induction l1 as [| x l1 IH]; [done |]. cbn. by destruct (f x). Qed.

(** The static table after a history depends on the static table before
    it only. *)
Lemma staticRoutes_foldl (later : list registration) : ∀ r r',
  staticRoutes r = staticRoutes r' →
  staticRoutes (foldl register r later) = staticRoutes (foldl register r' later).
Proof.
  induction later as [| reg later IH]; intros r r' Heq; [done |].
  cbn [foldl]. apply IH. unfold register, addWithMiddleware.
  destruct (hasParams (reg_path reg)); cbn [negb staticRoutes]; by rewrite ?Heq.
Qed.

Lemma staticRoutes_register_param r reg :
  hasParams (reg_path reg) = true → staticRoutes (register r reg) = staticRoutes r.
Proof. intros Hp. unfold register, addWithMiddleware. by rewrite Hp. Qed.

Lemma firstMatch_skips_shadowed req method (before between later : list registration)
    reg reg' :
  isParamRegistration method reg = true →
  shadows (segmentsOf (reg_path reg)) (segmentsOf (reg_path reg')) = true →
  firstMatch req (candidatesOf method (before ++ reg :: between ++ reg' :: later))
  = firstMatch req (candidatesOf method (before ++ reg :: between ++ later)).
Proof.
  intros Hp Hs. unfold firstMatch, candidatesOf.
  rewrite !List.filter_app. cbn [List.filter]. rewrite Hp, !List.filter_app.
  cbn [List.filter]. rewrite !find_list_app.
  destruct (List.find _ (List.filter _ before)); [done |].
  cbn [List.find].
  destruct (candidateMatches (segmentsOf (reg_path reg)) req) eqn:Hm; [done |].
  rewrite !find_list_app.
  destruct (List.find _ (List.filter _ between)); [done |].
  destruct (isParamRegistration method reg'); [| done].
  cbn [List.find].
  destruct (candidateMatches (segmentsOf (reg_path reg')) req) eqn:Hm'; [| done].
  by rewrite (shadows_matches _ _ _ Hs Hm') in Hm.
Qed.

End shadowed_routes.

(** X17. Among parameterized routes the first registration wins, unlike
    among static ones: a pattern registered after one of the same method
    that shadows it (a capture or the same literal in every segment) never
    serves a request.  Whatever comes between and later, every lookup
    answers as if the shadowed registration had not been made. *)
Theorem shadowed_param_route_is_unreachable
    (before between later : list registration) (reg reg' : registration)
    (method path : string) :
  reg_method reg = reg_method reg' →
  hasParams (reg_path reg) = true →
  hasParams (reg_path reg') = true →
  shadows (segmentsOf (reg_path reg)) (segmentsOf (reg_path reg')) = true →
  find (registerAll (before ++ reg :: between ++ reg' :: later)) method path
  = find (registerAll (before ++ reg :: between ++ later)) method path.
Proof.
  intros Hmethod Hp Hp' Hs.
  assert (staticRoutes (registerAll (before ++ reg :: between ++ reg' :: later))
          = staticRoutes (registerAll (before ++ reg :: between ++ later))) as Hstatic.
  { unfold registerAll. rewrite !foldl_app. cbn [foldl]. rewrite !foldl_app. cbn [foldl].
    apply staticRoutes_foldl. by apply staticRoutes_register_param. }
  unfold find. rewrite Hstatic.
  destruct (match staticRoutes _ !! method with Some m => m !! path | None => None end);
    [done |].
  rewrite !paramRoutes_registerAll, !scan_firstMatch.
  destruct (String.eqb_spec (reg_method reg) method) as [Heq | Hne].
  - rewrite (firstMatch_skips_shadowed _ method before between later reg reg'); [done | | done].
    unfold isParamRegistration. rewrite Hp, andb_true_r. by apply String.eqb_eq.
  - assert (isParamRegistration method reg' = false) as Hout.
    { unfold isParamRegistration. rewrite <- Hmethod.
      by rewrite (proj2 (String.eqb_neq _ _) Hne). }
    unfold candidatesOf. rewrite !List.filter_app. cbn [List.filter].
    rewrite !List.filter_app. cbn [List.filter]. by rewrite Hout.
Qed.

Lemma shadowed_param_route_is_unreachable_witness :
  find (registerAll [regAnyPair; regUserMe; regUserByName; regUserById]) "GET" "/users/7"
  = find (registerAll [regAnyPair; regUserMe; regUserById]) "GET" "/users/7".
Proof.
  apply (shadowed_param_route_is_unreachable [] [regUserMe] [regUserById]
           regAnyPair regUserByName "GET" "/users/7"); reflexivity.
Defined.

(** ** Integers out of range *)

Section atoi_range.
Implicit Types (n acc : Z) (s body : string).

Lemma digits_nonneg s : ∀ acc n,
  (0 ≤ acc)%Z → strconv.digits acc s = Some n → (0 ≤ n)%Z.
Proof.
  induction s as [| c s IH]; intros acc n Hacc; cbn [strconv.digits].
  - intros [= <-]. done.
  - destruct (strconv.isDigit c); [| done]. apply IH. lia.
Qed.

Lemma Atoi_tail_range (neg : bool) body s :
  (- 2 ^ 63 ≤
   (match body with
    | EmptyString => (0%Z, Some (strconv.errSyntax "strconv.Atoi" s))
    | _ =>
      match strconv.digits 0 body with
      | None => (0%Z, Some (strconv.errSyntax "strconv.Atoi" s))
      | Some n =>
          if neg then
            if (n <=? 2 ^ 63)%Z then ((- n)%Z, None)
            else ((- 2 ^ 63)%Z, Some (strconv.errRange "strconv.Atoi" s))
          else
            if (n <? 2 ^ 63)%Z then (n, None)
            else ((2 ^ 63 - 1)%Z, Some (strconv.errRange "strconv.Atoi" s))
      end
    end).1 < 2 ^ 63)%Z.
Proof.
  destruct body as [| c body']; [cbn; lia |].
  destruct (strconv.digits 0 (String c body')) as [n |] eqn:Hd; [| cbn; lia].
  apply digits_nonneg in Hd; [| lia].
  destruct neg.
  - destruct (Z.leb_spec n (2 ^ 63)); cbn [fst]; lia.
  - destruct (Z.ltb_spec n (2 ^ 63)); cbn [fst]; lia.
Qed.

Lemma Atoi_range s : (- 2 ^ 63 ≤ (strconv.Atoi s).1 < 2 ^ 63)%Z.
Proof.
  destruct s as [| c s']; [cbn; lia |].
  pose proof (Atoi_tail_range true s' (String c s')) as Hminus.
  pose proof (Atoi_tail_range false s' (String c s')) as Hplus.
  pose proof (Atoi_tail_range false (String c s') (String c s')) as Hbare.
  destruct c as [[] [] [] [] [] [] [] []];
    first [exact Hbare | exact Hminus | exact Hplus].
Qed.

End atoi_range.

(** X18. The number [QueryInt] returns is always an [int].  Decimal
    digits of a number past the largest [int] make it return that largest
    [int] together with a range error, and make [DefaultQueryInt] return
    its default value, not the bound. *)
Theorem query_int_out_of_range (c : Context) (key : string) (n defaultValue : Z) :
  (2 ^ 63 ≤ n < 10 ^ 20)%Z →
  Query c key = strconv.formatDigits 20 n EmptyString →
  QueryInt c key = ((2 ^ 63 - 1)%Z, Some (strconv.errRange "strconv.Atoi" (Query c key)))
  ∧ DefaultQueryInt c key defaultValue = defaultValue
  ∧ ∀ (c' : Context) (key' : string), (- 2 ^ 63 ≤ (QueryInt c' key').1 < 2 ^ 63)%Z.
Proof.
  intros Hn Hq. split; [| split].
  - unfold QueryInt. rewrite Hq.
    destruct (formatDigits_head 19 n EmptyString) as (d & rest & Hd & Hfmt); [lia |].
    pose proof (digits_formatDigits 20 n EmptyString) as Hdig.
    rewrite Hfmt in *. cbn [String.eqb]. rewrite Atoi_unsigned by done.
    rewrite Hdig by (change (10 ^ Z.of_nat 20)%Z with (10 ^ 20)%Z; lia).
    cbn [strconv.digits]. by destruct (Z.ltb_spec n (2 ^ 63)); [lia |].
  - unfold DefaultQueryInt. rewrite Hq.
    destruct (formatDigits_head 19 n EmptyString) as (d & rest & Hd & Hfmt); [lia |].
    pose proof (digits_formatDigits 20 n EmptyString) as Hdig.
    rewrite Hfmt in *. cbn [String.eqb]. rewrite Atoi_unsigned by done.
    rewrite Hdig by (change (10 ^ Z.of_nat 20)%Z with (10 ^ 20)%Z; lia).
    cbn [strconv.digits]. by destruct (Z.ltb_spec n (2 ^ 63)); [lia |].
  - intros c' key'. unfold QueryInt.
    destruct (String.eqb (Query c' key') EmptyString); [cbn; lia | apply Atoi_range].
Qed.

Lemma query_int_out_of_range_witness :
  DefaultQueryInt (NewContext (newResponseWriter (transport httptest.NewRecorder))
                     (requestWithQuery "/test" "page" "9223372036854775808")) "page" 1
  = 1%Z.
Proof.
  apply (query_int_out_of_range
           (NewContext (newResponseWriter (transport httptest.NewRecorder))
              (requestWithQuery "/test" "page" "9223372036854775808"))
           "page" 9223372036854775808 1).
  - lia.
  - reflexivity.
Defined.

(** ** Booleans and defaults *)

Lemma existsb_eqb_In (str : string) (l : list string) :
  existsb (String.eqb str) l = true ↔ In str l.
Proof.
  induction l as [| x l IH]; cbn [existsb In]; [split; [discriminate | done] |].
  rewrite orb_true_iff, IH, String.eqb_eq. split; intros [H | H]; auto.
Qed.

(** X19. [DefaultQueryBool] leaves its default exactly on the spellings of
    the other value that [strconv.ParseBool] knows: a default of true
    becomes false on one of six spellings of false and on nothing else,
    a default of false becomes true on one of six spellings of true and
    on nothing else; an absent key, an empty value and any other text,
    such as a spelling in another case, all give the default. *)
Theorem default_query_bool_leaves_default_on_known_spellings (c : Context) (key : string) :
  (DefaultQueryBool c key true = false
   ↔ In (Query c key) ["0"; "f"; "F"; "FALSE"; "false"; "False"])
  ∧ (DefaultQueryBool c key false = true
     ↔ In (Query c key) ["1"; "t"; "T"; "TRUE"; "true"; "True"]).
Proof.
  assert (∀ s, In s ["1"; "t"; "T"; "TRUE"; "true"; "True"] →
               In s ["0"; "f"; "F"; "FALSE"; "false"; "False"] → False) as Hdisjoint.
  { intros s Ht Hf. cbn [In] in Ht, Hf.
    repeat (destruct Ht as [<- | Ht]; [repeat (destruct Hf as [Hf | Hf]; try done) |]).
    done. }
  split.
  - unfold DefaultQueryBool, strconv.ParseBool.
    destruct (String.eqb_spec (Query c key) EmptyString) as [-> | Hne].
    { split; [done |]. cbn [In]. intros H. repeat (destruct H as [H | H]; try done). }
    destruct (existsb _ ["1"; "t"; "T"; "TRUE"; "true"; "True"]) eqn:Ht.
    { apply existsb_eqb_In in Ht. split; [done |]. intros Hf. by destruct (Hdisjoint _ Ht Hf). }
    destruct (existsb _ ["0"; "f"; "F"; "FALSE"; "false"; "False"]) eqn:Hf.
    { apply existsb_eqb_In in Hf. done. }
    split; [done |]. intros Hin. apply existsb_eqb_In in Hin. congruence.
  - unfold DefaultQueryBool, strconv.ParseBool.
    destruct (String.eqb_spec (Query c key) EmptyString) as [-> | Hne].
    { split; [done |]. cbn [In]. intros H. repeat (destruct H as [H | H]; try done). }
    destruct (existsb _ ["1"; "t"; "T"; "TRUE"; "true"; "True"]) eqn:Ht.
    { apply existsb_eqb_In in Ht. done. }
    destruct (existsb _ ["0"; "f"; "F"; "FALSE"; "false"; "False"]) eqn:Hf.
    { split; [done |]. intros Hin. apply existsb_eqb_In in Hin. congruence. }
    split; [done |]. intros Hin. apply existsb_eqb_In in Hin. congruence.
Qed.
